(** * TaglessCRM output hooks: store-sales conversions and GA4

    A shallow embedding of
    [plugins/pipeline_plugins/hooks/ads_ssd_hook.py] and
    [plugins/pipeline_plugins/hooks/ga4_hook.py], and the properties of
    their validation, batching and [send_events] entry points.

    Conventions of the embedding.
    - A Python [str] is a Rocq [string]; every character stands for a code
      point below 256, and the character classes of [re] and [str.isdigit]
      are Python's Unicode classes restricted to that range.
    - A Python [dict] with string keys is a [gmap string _]; only lookups
      and membership tests are made on events, never an iteration.
    - Python exceptions are values of [exn]; a computation that may raise
      returns a [result].  Calls that leave the process (the AdWords
      upload, [requests.post], [logging]) go through a state-and-exception
      monad whose state records every call together with its answer. *)

From Stdlib Require Import ZArith Ascii String List Lia Permutation Sorted.
From stdpp Require Import base option list strings gmap fin_maps sorting.

Local Open Scope string_scope.
Local Open Scope nat_scope.
Local Open Scope list_scope.

(** ** Python values and exceptions *)

(** The values an event field can carry once the staged record is
    decoded. *)
#[warnings="-register-all"]
Inductive pyval : Type :=
| PNone
| PBool (b : bool)
| PInt (z : Z)
| PStr (s : string)
| PList (l : list pyval).

(** [bool(v)]. *)
Definition truthy (v : pyval) : bool :=
  match v with
  | PNone => false
  | PBool b => b
  | PInt z => negb (Z.eqb z 0)
  | PStr s => negb (String.eqb s "")
  | PList l => match l with [] => false | _ :: _ => true end
  end.

(** An event is a [Dict[str, Any]]. *)
Abbreviation Event := (gmap string pyval).

(** [errors.ErrorNameIDMap]: the members the two hooks name.  The module
    [utils/errors.py] declares more members (the AdWords upload raises
    some of them); they are reached through [ERROR_MEMBER].  A failed
    event stores the member in place of its integer [.value]. *)
Inductive ErrorNameIDMap : Type :=
| ADS_SSD_HOOK_ERROR_PAYLOAD_FIELD_VIOLATES_SHA256_FORMAT
| ADS_SSD_HOOK_ERROR_EMPTY_UPLOAD_ID
| ADS_SSD_HOOK_ERROR_MISSING_MANDATORY_FIELDS
| ADS_SSD_HOOK_ERROR_MISSING_IDENTIFIER_FIELD
| ADS_SSD_HOOK_ERROR_INVALID_FORMAT_OF_CONVERSION_TIME
| ADS_SSD_HOOK_ERROR_INVALID_CONVERSION_VALUE
| ADS_SSD_HOOK_ERROR_INVALID_CURRENCY
| ADS_SSD_HOOK_ERROR_INVALID_LENGTH_OF_CONVERSION_NAME
| GA4_HOOK_ERROR_VALUE_REQUIRED_CLIENT_ID
| GA4_HOOK_ERROR_VALUE_INVALID_USER_ID
| GA4_HOOK_ERROR_VALUE_INVALID_TIMESTAMP_MICROS
| GA4_HOOK_ERROR_VALUE_INVALID_USER_PROPERTIES
| GA4_HOOK_ERROR_VALUE_INVALID_NON_PERSONALIZED_ADS
| GA4_HOOK_ERROR_VALUE_INVALID_EVENTS
| GA4_HOOK_ERROR_VALUE_INVALID_EVENTS_PARAMS
| GA4_HOOK_ERROR_VALUE_INVALID_EVENTS_PARAMS_ITEMS
| GA4_HOOK_ERROR_INVALID_JSON_STRUCTURE
| GA4_HOOK_ERROR_INVALID_VALUES
| RETRIABLE_GA4_HOOK_ERROR_HTTP_ERROR
| RETRIABLE_GA_HOOK_ERROR_HTTP_ERROR
| ERROR_MEMBER (name : string).

(** The exceptions that can travel through the hooks. *)
Inductive exn : Type :=
| DataOutConnectorValueError (msg : string) (error_num : ErrorNameIDMap)
| DataOutConnectorSendUnsuccessfulError (msg : string) (error_num : ErrorNameIDMap)
| DataOutConnectorAuthenticationError (msg : string)
| DataOutConnectorError (msg : string)
| TypeError
| AttributeError
| KeyError
| IndexError
| OtherException (name : string).

Inductive result (A : Type) : Type :=
| Ok (a : A)
| Raise (e : exn).
Arguments Ok {A} a.
Arguments Raise {A} e.

Definition is_ok {A} (r : result A) : bool :=
  match r with Ok _ => true | Raise _ => false end.

Definition rbind {A B} (r : result A) (k : A -> result B) : result B :=
  match r with
  | Ok a => k a
  | Raise e => Raise e
  end.

Declare Scope result_scope.
Delimit Scope result_scope with result.
Notation "'do' x <- r ; k" := (rbind r (fun x => k))
  (at level 10, x name, r at level 100, k at level 200) : result_scope.
Notation "'do_' r ; k" := (rbind r (fun _ => k))
  (at level 10, r at level 100, k at level 200) : result_scope.

(** ** Character classes and the two regular expressions *)

Definition code (c : ascii) : N := N_of_ascii c.

Definition in_range (lo hi : N) (c : ascii) : bool :=
  (N.leb lo (code c) && N.leb (code c) hi)%bool.

(** [[0-9]]; also [\d] on code points below 256. *)
Definition is_decimal (c : ascii) : bool := in_range 48 57 c.

(** [[A-Fa-f0-9]]. *)
Definition is_hex (c : ascii) : bool :=
  (in_range 65 70 c || in_range 97 102 c || in_range 48 57 c)%bool.

(** [\w] of a [str] pattern: [str.isalnum] or the underscore. *)
Definition is_word (c : ascii) : bool :=
  (in_range 48 57 c || in_range 65 90 c || in_range 97 122 c
   || N.eqb (code c) 95
   || N.eqb (code c) 170 || N.eqb (code c) 178 || N.eqb (code c) 179
   || N.eqb (code c) 181 || N.eqb (code c) 185 || N.eqb (code c) 186
   || in_range 188 190 c
   || in_range 192 214 c || in_range 216 246 c || in_range 248 255 c)%bool.

(** [[\w\/-]]. *)
Definition is_zone_char (c : ascii) : bool :=
  (is_word c || N.eqb (code c) 47 || N.eqb (code c) 45)%bool.

(** The characters [str.isdigit] accepts: the decimal digits and the
    superscripts 1, 2 and 3. *)
Definition is_digit_char (c : ascii) : bool :=
  (is_decimal c || N.eqb (code c) 178 || N.eqb (code c) 179
   || N.eqb (code c) 185)%bool.

(** [consume p n s] reads exactly [n] characters of class [p] at the head
    of [s] and returns what follows them: the pattern [p{n}]. *)
Fixpoint consume (p : ascii -> bool) (n : nat) (s : string) : option string :=
  match n with
  | 0 => Some s
  | S n' =>
      match s with
      | String c rest => if p c then consume p n' rest else None
      | EmptyString => None
      end
  end.

Definition is_space (c : ascii) : bool := N.eqb (code c) 32.

Definition newline : string := String (ascii_of_nat 10) EmptyString.

(** [re.match(r'^[A-Fa-f0-9]{64}$', s)]: [$] matches at the end of the
    string and also just before a newline that ends it. *)
Definition match_SHA256_DIGEST_PATTERN (s : string) : bool :=
  match consume is_hex 64 s with
  | Some rest => (String.eqb rest "" || String.eqb rest newline)%bool
  | None => false
  end.

(** [re.match(r'\d{8} \d{6} [\w\/-]+', s)]: [re.match] anchors the
    pattern at the start of [s] only, so the match succeeds as soon as one
    zone character follows the second space. *)
Definition match_RE_STRING_DATE_TIME (s : string) : bool :=
  match consume is_decimal 8 s with
  | Some s1 =>
      match consume is_space 1 s1 with
      | Some s2 =>
          match consume is_decimal 6 s2 with
          | Some s3 =>
              match consume is_space 1 s3 with
              | Some (String c _) => is_zone_char c
              | _ => false
              end
          | None => false
          end
      | None => false
      end
  | None => false
  end.

(** [s.isdigit()]. *)
Fixpoint all_chars (p : ascii -> bool) (s : string) : bool :=
  match s with
  | EmptyString => true
  | String c rest => (p c && all_chars p rest)%bool
  end.

Definition str_isdigit (s : string) : bool :=
  (negb (String.eqb s "") && all_chars is_digit_char s)%bool.

(** [repr] of a list of plain strings, as an f-string prints it. *)
Definition py_repr_str_list (l : list string) : string :=
  ("[" ++ String.concat ", " (map (fun s => "'" ++ s ++ "'") l) ++ "]")%string.

(** ** The state-and-exception monad

    A computation reads and extends a world [W] (the calls made so far and
    their answers) and either returns or raises; the world survives a
    raise, as the calls already made are not undone. *)

Definition M (W A : Type) : Type := W -> result A * W.

Definition ret {W A} (a : A) : M W A := fun w => (Ok a, w).

Definition raise {W A} (e : exn) : M W A := fun w => (Raise e, w).

Definition bind {W A B} (m : M W A) (k : A -> M W B) : M W B :=
  fun w =>
    match m w with
    | (Ok a, w') => k a w'
    | (Raise e, w') => (Raise e, w')
    end.

Definition lift {W A} (r : result A) : M W A := fun w => (r, w).

(** [try: m except <handled exceptions> as error: h error]; [handler e] is
    [None] when no [except] clause takes [e]. *)
Definition try_except {W A} (m : M W A) (handler : exn -> option (M W A)) : M W A :=
  fun w =>
    match m w with
    | (Ok a, w') => (Ok a, w')
    | (Raise e, w') =>
        match handler e with
        | Some h => h w'
        | None => (Raise e, w')
        end
    end.

Declare Scope monad_scope.
Delimit Scope monad_scope with monad.
Notation "x <- m ;; k" := (bind m (fun x => k))
  (at level 100, m at next level, right associativity) : monad_scope.
Notation "m ;;; k" := (bind m (fun _ => k))
  (at level 100, right associativity) : monad_scope.

(** ** The blob

    Modelled from the spec: [utils/blob.py] is not among the sources.  A
    blob carries the ordered events, the position of the first of them in
    the larger source, and the failed events reported so far;
    [append_failed_event] adds one [(index, event, error_num)] triple at
    the end, the shape the tests read back ([failed_events[0][2]] is the
    error value). *)
Record Blob : Type := mkBlob {
  events : list Event;
  position : Z;
  failed_events : list (Z * Event * ErrorNameIDMap)
}.

Definition append_failed_event (blb : Blob) (index : Z) (event : Event)
    (error_num : ErrorNameIDMap) : Blob :=
  mkBlob (events blb) (position blb)
         (failed_events blb ++ [(index, event, error_num)]).

(** [l[i]] for a list and a non-negative index. *)
Definition list_getitem {A} (l : list A) (i : nat) : result A :=
  match l !! i with
  | Some x => Ok x
  | None => Raise IndexError
  end.

(** The loop that closes [send_events] in both hooks:
    [blb.append_failed_event(event[0] + blb.position, blb.events[event[0]],
    event[1].value)] for every pair in [invalid_indices_and_errors]. *)
Fixpoint append_failed_events (blb : Blob)
    (invalid_indices_and_errors : list (nat * ErrorNameIDMap)) : result Blob :=
  match invalid_indices_and_errors with
  | [] => Ok blb
  | event :: rest =>
      (do raw <- list_getitem (events blb) (fst event);
       append_failed_events
         (append_failed_event blb (Z.of_nat (fst event) + position blb)%Z
                              raw (snd event))
         rest)%result
  end.

(** [enumerate(l)]. *)
Definition enumerate {A} (l : list A) : list (nat * A) :=
  zip (seq 0 (length l)) l.

(** [range(start, stop, step)] for a positive step, unrolled at most
    [fuel] times; [stop] unrollings always suffice. *)
Fixpoint range_from (fuel start stop step : nat) : list nat :=
  match fuel with
  | 0 => []
  | S fuel' =>
      if start <? stop
      then start :: range_from fuel' (start + step) stop step
      else []
  end.

Definition py_range (start stop step : nat) : list nat :=
  range_from stop start stop step.

(** [l[i:j]] for [0 <= i <= j]. *)
Definition slice {A} (l : list A) (i j : nat) : list A :=
  take (j - i) (drop i l).

(** ** Dictionary and sequence primitives *)

Definition str_in (s : string) (l : list string) : bool :=
  existsb (String.eqb s) l.

Definition has_key (event : Event) (field : string) : bool :=
  match event !! field with Some _ => true | None => false end.

(** [event[field]]. *)
Definition getitem (event : Event) (field : string) : result pyval :=
  match event !! field with
  | Some v => Ok v
  | None => Raise KeyError
  end.

(** [len(v)]. *)
Definition py_len (v : pyval) : result nat :=
  match v with
  | PStr s => Ok (String.length s)
  | PList l => Ok (List.length l)
  | _ => Raise TypeError
  end.

(** ** ads_ssd_hook.py *)

Module ads_ssd_hook.

Definition _DEFAULT_BATCH_SIZE : nat := 1000.

Definition msg_sha256 : string := "None or string is not in SHA256 format.".

Definition _validate_sha256_pattern (field_data : pyval) : result unit :=
  match field_data with
  | PNone =>
      Raise (DataOutConnectorValueError msg_sha256
               ADS_SSD_HOOK_ERROR_PAYLOAD_FIELD_VIOLATES_SHA256_FORMAT)
  | PStr s =>
      if match_SHA256_DIGEST_PATTERN s then Ok tt
      else Raise (DataOutConnectorValueError msg_sha256
                    ADS_SSD_HOOK_ERROR_PAYLOAD_FIELD_VIOLATES_SHA256_FORMAT)
  | _ => Raise TypeError
  end.

Record UserIdentifier : Type := mkUserIdentifier {
  userIdentifierType : string;
  value : pyval
}.

(** The dictionary under the key ['StoreSalesTransaction'] of a formatted
    event; [microAmount] sits under [transactionAmount.money] and
    [currencyCode] under [transactionAmount]. *)
Record StoreSalesTransaction : Type := mkTransaction {
  userIdentifiers : list UserIdentifier;
  transactionTime : pyval;
  microAmount : pyval;
  currencyCode : pyval;
  conversionName : pyval
}.

Definition store_sales_transaction_fields : list string :=
  ["transactionTime"; "microAmount"; "currencyCode"; "conversionName"].

Definition identifier_types : list (string * string) :=
  [ ("email", "HASHED_EMAIL");
    ("email2", "HASHED_EMAIL");
    ("email3", "HASHED_EMAIL");
    ("firstName", "HASHED_LAST_NAME");
    ("lastName", "HASHED_FIRST_NAME");
    ("city", "CITY");
    ("state", "STATE");
    ("zip", "ZIPCODE");
    ("country", "COUNTRY_CODE");
    ("phoneNumber", "HASHED_PHONE");
    ("phoneNumber2", "HASHED_PHONE");
    ("phoneNumber3", "HASHED_PHONE") ].

Definition hashed_types : list string :=
  ["HASHED_EMAIL"; "HASHED_PHONE"; "HASHED_LAST_NAME"; "HASHED_FIRST_NAME"].

(** The loop [for field, type in identifier_types.items()]. *)
Fixpoint collect_user_identifiers (event : Event) (types : list (string * string))
    (user_identifiers : list UserIdentifier) : result (list UserIdentifier) :=
  match types with
  | [] => Ok user_identifiers
  | (field, type) :: rest =>
      match event !! field with
      | Some v =>
          (do_ (if str_in type hashed_types
                then _validate_sha256_pattern v else Ok tt);
           collect_user_identifiers event rest
             (user_identifiers ++ [mkUserIdentifier type v]))%result
      | None => collect_user_identifiers event rest user_identifiers
      end
  end.

Definition msg_missing_mandatory : string :=
  ("Event is missing at least one mandatory field "
   ++ py_repr_str_list store_sales_transaction_fields)%string.

Definition msg_missing_identifier : string :=
  ("Event is missing at least one user identifier field "
   ++ py_repr_str_list (map fst identifier_types))%string.

(** [re.match(pattern, v)] used as a condition: a non-string subject is a
    [TypeError]. *)
Definition re_match_date_time (v : pyval) : result bool :=
  match v with
  | PStr s => Ok (match_RE_STRING_DATE_TIME s)
  | _ => Raise TypeError
  end.

(** [v.isdigit()]: only [str] has the method. *)
Definition py_isdigit (v : pyval) : result bool :=
  match v with
  | PStr s => Ok (str_isdigit s)
  | _ => Raise AttributeError
  end.

Definition _format_event (event : Event) : result StoreSalesTransaction :=
  (if negb (forallb (has_key event) store_sales_transaction_fields) then
     Raise (DataOutConnectorValueError msg_missing_mandatory
              ADS_SSD_HOOK_ERROR_MISSING_MANDATORY_FIELDS)
   else
     do user_identifiers <- collect_user_identifiers event identifier_types [];
     match user_identifiers with
     | [] =>
         Raise (DataOutConnectorValueError msg_missing_identifier
                  ADS_SSD_HOOK_ERROR_MISSING_IDENTIFIER_FIELD)
     | _ :: _ =>
         do time <- getitem event "transactionTime";
         do time_ok <- re_match_date_time time;
         if negb time_ok then
           Raise (DataOutConnectorValueError
                    "transactionTime should be formatted: yyyymmdd hhmmss [tz]"
                    ADS_SSD_HOOK_ERROR_INVALID_FORMAT_OF_CONVERSION_TIME)
         else
           do amount <- getitem event "microAmount";
           do amount_ok <- py_isdigit amount;
           if negb amount_ok then
             Raise (DataOutConnectorValueError
                      "microAmount must be a positive integer."
                      ADS_SSD_HOOK_ERROR_INVALID_CONVERSION_VALUE)
           else
             do currency <- getitem event "currencyCode";
             if negb (truthy currency) then
               Raise (DataOutConnectorValueError
                        "Currency code must not be empty."
                        ADS_SSD_HOOK_ERROR_INVALID_CURRENCY)
             else
               do name <- getitem event "conversionName";
               do too_long <-
                 (if negb (truthy name) then Ok true
                  else do n <- py_len name; Ok (100 <? n));
               if too_long then
                 Raise (DataOutConnectorValueError
                          "Length of conversionName should be <= 100."
                          ADS_SSD_HOOK_ERROR_INVALID_LENGTH_OF_CONVERSION_NAME)
               else
                 Ok (mkTransaction user_identifiers time amount currency name)
     end)%result.


Record GoogleAdsStoreSalesConversionsHook : Type := mkAdsHook {
  external_upload_id : string;
  upload_type : pyval
}.

Definition _validate_init_params (external_upload_id : string) : result unit :=
  if String.eqb external_upload_id "" then
    Raise (DataOutConnectorValueError "External upload ID is empty."
             ADS_SSD_HOOK_ERROR_EMPTY_UPLOAD_ID)
  else Ok tt.

(** The loop of [_validate_and_prepare_events_to_send]: only
    [DataOutConnectorValueError] is caught. *)
Fixpoint validate_and_prepare_loop (indexed : list (nat * Event))
    (valid_events : list (nat * StoreSalesTransaction))
    (invalid_indices_and_errors : list (nat * ErrorNameIDMap))
  : result (list (nat * StoreSalesTransaction) * list (nat * ErrorNameIDMap)) :=
  match indexed with
  | [] => Ok (valid_events, invalid_indices_and_errors)
  | (i, event) :: rest =>
      match _format_event event with
      | Ok payload =>
          validate_and_prepare_loop rest (valid_events ++ [(i, payload)])
                                    invalid_indices_and_errors
      | Raise (DataOutConnectorValueError _ error_num) =>
          validate_and_prepare_loop rest valid_events
                                    (invalid_indices_and_errors ++ [(i, error_num)])
      | Raise e => Raise e
      end
  end.

Definition _validate_and_prepare_events_to_send (events : list Event)
  : result (list (nat * StoreSalesTransaction) * list (nat * ErrorNameIDMap)) :=
  validate_and_prepare_loop (enumerate events) [] [].

Definition _batch_generator {A} (events : list A) : list (list A) :=
  map (fun i => slice events i (i + _DEFAULT_BATCH_SIZE))
      (py_range 0 (length events) _DEFAULT_BATCH_SIZE).

(** One call of [add_store_sales_conversions] as the world records it. *)
Record AdsCall : Type := mkAdsCall {
  call_external_upload_id : string;
  call_user_list : list StoreSalesTransaction;
  call_upload_type : pyval
}.

Abbreviation AdsWorld := (list (AdsCall * result unit)).

Section AdsSendEvents.

(** [ads_hook.GoogleAdsHook.add_store_sales_conversions] is inherited
    from a module that is not among the sources: its outcome, which may
    depend on every earlier call, is a parameter. *)
Variable add_store_sales_conversions : AdsWorld -> AdsCall -> result unit.

Definition call_add_store_sales_conversions (c : AdsCall) : M AdsWorld unit :=
  fun w =>
    let r := add_store_sales_conversions w c in
    (r, w ++ [(c, r)]).

(** The loop [for batch in batches] of [send_events]. *)
Fixpoint send_batches (self : GoogleAdsStoreSalesConversionsHook)
    (batches : list (list (nat * StoreSalesTransaction)))
    (invalid_indices_and_errors : list (nat * ErrorNameIDMap))
  : M AdsWorld (list (nat * ErrorNameIDMap)) :=
  match batches with
  | [] => ret invalid_indices_and_errors
  | batch :: rest =>
      (invalid' <-
         try_except
           (let user_list := map snd batch in
            call_add_store_sales_conversions
              (mkAdsCall (external_upload_id self) user_list (upload_type self)) ;;;
            ret invalid_indices_and_errors)
           (fun error =>
              match error with
              | DataOutConnectorSendUnsuccessfulError _ error_num =>
                  Some (ret (invalid_indices_and_errors
                             ++ map (fun event => (fst event, error_num)) batch))
              | _ => None
              end) ;;
       send_batches self rest invalid')%monad
  end.

Definition send_events (self : GoogleAdsStoreSalesConversionsHook) (blb : Blob)
  : M AdsWorld Blob :=
  (validated <- lift (_validate_and_prepare_events_to_send (events blb)) ;;
   let valid_events := fst validated in
   let invalid_indices_and_errors := snd validated in
   let batches := _batch_generator valid_events in
   invalid' <- send_batches self batches invalid_indices_and_errors ;;
   lift (append_failed_events blb invalid'))%monad.

End AdsSendEvents.

End ads_ssd_hook.

(** ** ga4_hook.py *)

(** What [json.loads] returns. *)
#[warnings="-register-all"]
Inductive json : Type :=
| JNull
| JBool (b : bool)
| JNumber (literal : string)
| JString (s : string)
| JArray (items : list json)
| JObject (members : list (string * json)).

(** [d[k] = v] on the members of a dictionary: an existing key keeps its
    place, a new key goes last. *)
Fixpoint dict_set (members : list (string * json)) (k : string) (v : json)
  : list (string * json) :=
  match members with
  | [] => [(k, v)]
  | (k', v') :: rest =>
      if String.eqb k' k then (k, v) :: rest
      else (k', v') :: dict_set rest k v
  end.

(** [j[k] = v]: only a dictionary takes a string key. *)
Definition json_setitem (j : json) (k : string) (v : json) : result json :=
  match j with
  | JObject members => Ok (JObject (dict_set members k v))
  | _ => Raise TypeError
  end.

(** [needle in hay] on strings. *)
Fixpoint str_contains (needle hay : string) : bool :=
  if String.prefix needle hay then true
  else match hay with
       | EmptyString => false
       | String _ rest => str_contains needle rest
       end.

Module ga4_hook.

Definition _GA_EVENT_POST_URL : string :=
  "https://www.google-analytics.com/mp/collect".
Definition _GA_EVENT_VALIDATION_URL : string :=
  "https://www.google-analytics.com/debug/mp/collect".

(** The table, in the order the dictionary literal lists its keys, which
    is the order its iteration follows. *)
Definition _ERROR_TYPES : list (string * ErrorNameIDMap) :=
  [ ("client_id", GA4_HOOK_ERROR_VALUE_REQUIRED_CLIENT_ID);
    ("user_id", GA4_HOOK_ERROR_VALUE_INVALID_USER_ID);
    ("timestamp_micros", GA4_HOOK_ERROR_VALUE_INVALID_TIMESTAMP_MICROS);
    ("user_properties", GA4_HOOK_ERROR_VALUE_INVALID_USER_PROPERTIES);
    ("non_personalized_ads", GA4_HOOK_ERROR_VALUE_INVALID_NON_PERSONALIZED_ADS);
    ("events", GA4_HOOK_ERROR_VALUE_INVALID_EVENTS);
    ("events.params", GA4_HOOK_ERROR_VALUE_INVALID_EVENTS_PARAMS);
    ("events.params.items", GA4_HOOK_ERROR_VALUE_INVALID_EVENTS_PARAMS_ITEMS) ].

(** [PayloadTypes]. *)
Definition FIREBASE : string := "firebase".
Definition GTAG : string := "gtag".

Record GoogleAnalyticsV4Hook : Type := mkGA4Hook {
  dry_run : bool;
  api_secret : option string;
  payload_type : string;
  measurement_id : option string;
  firebase_app_id : option string;
  post_url : string;
  validate_url : string
}.

(** [not s] for an optional string. *)
Definition empty_opt (s : option string) : bool :=
  match s with
  | None => true
  | Some s => String.eqb s ""
  end.

(** [str(s)] as [str.format] prints an optional string. *)
Definition format_opt (s : option string) : string :=
  match s with
  | None => "None"
  | Some s => s
  end.

Definition _validate_credentials (api_secret : option string) (payload_type : string)
    (measurement_id firebase_app_id : option string) : result unit :=
  if empty_opt api_secret then
    Raise (DataOutConnectorAuthenticationError
      "Missing api secret. Please check you have api_secret set as a Cloud Composer variable as specified in the TCRM documentation.")
  else if negb (str_in payload_type [FIREBASE; GTAG]) then
    Raise (DataOutConnectorError
      ("Unsupport payload_type: " ++ payload_type
       ++ ". Supported payload_type is gtag or firebase.")%string)
  else if (String.eqb payload_type FIREBASE && empty_opt firebase_app_id)%bool then
    Raise (DataOutConnectorError
      "Wrong payload_type or missing firebase_app_id. Please make sure firebase_app_id is set when payload_type is firebase.")
  else if (String.eqb payload_type GTAG && empty_opt measurement_id)%bool then
    Raise (DataOutConnectorError
      "Wrong payload_type or missing measurement_id. Please make sure measurement_id is set when payload_type is gtag.")
  else Ok tt.

Definition _build_api_url (api_secret : option string) (payload_type : string)
    (measurement_id firebase_app_id : option string) (is_post : bool) : string :=
  let query_url :=
    (if String.eqb payload_type GTAG
     then "api_secret=" ++ format_opt api_secret
          ++ "&measurement_id=" ++ format_opt measurement_id
     else "api_secret=" ++ format_opt api_secret
          ++ "&firebase_app_id=" ++ format_opt firebase_app_id)%string in
  (if is_post
   then _GA_EVENT_POST_URL ++ "?" ++ query_url
   else _GA_EVENT_VALIDATION_URL ++ "?" ++ query_url)%string.

(** [GoogleAnalyticsV4Hook.__init__]. *)
Definition __init__ (api_secret : option string) (payload_type : string)
    (measurement_id firebase_app_id : option string) (dry_run : bool)
  : result GoogleAnalyticsV4Hook :=
  (do_ _validate_credentials api_secret payload_type measurement_id firebase_app_id;
   Ok (mkGA4Hook dry_run api_secret payload_type measurement_id firebase_app_id
         (_build_api_url api_secret payload_type measurement_id firebase_app_id true)
         (_build_api_url api_secret payload_type measurement_id firebase_app_id false)))%result.

(** A call of [requests.post], with [json=] or with [data=]. *)
Inductive Request : Type :=
| post_json (url : string) (body : json)
| post_data (url : string) (data : pyval).

Record ValidationMessage : Type := mkMessage {
  fieldPath : option string;
  description : string
}.

(** What a call of [requests.post] gives: [requests.ConnectionError], or a
    response with its status code and the [validationMessages] of its
    JSON body. *)
Inductive Response : Type :=
| ConnectionError
| HttpResponse (status_code : Z) (validationMessages : list ValidationMessage).

Inductive LogRecord : Type :=
| log_error (row_id : pyval) (field_path : option string) (description : string)
| log_info (url : string) (payload : pyval).

Record World : Type := mkWorld {
  http : list (Request * Response);
  logs : list LogRecord
}.

Definition write_log (r : LogRecord) : M World unit :=
  fun w => (Ok tt, mkWorld (http w) (logs w ++ [r])).

(** The first entry of the table that the message selects:
    [field_path == property_name or property_name in description]. *)
Fixpoint find_error_type (types : list (string * ErrorNameIDMap))
    (field_path : option string) (description : string) : option ErrorNameIDMap :=
  match types with
  | [] => None
  | (property_name, error) :: rest =>
      if (match field_path with
          | Some f => String.eqb f property_name
          | None => false
          end || str_contains property_name description)%bool
      then Some error
      else find_error_type rest field_path description
  end.

(** What one iteration of the validation loop decides for its event. *)
Inductive Verdict : Type :=
| Valid
| Invalid (error_num : ErrorNameIDMap).

Section GA4SendEvents.

(** [json.loads] on a string, [None] for [JSONDecodeError]; the parser is
    the standard library's. *)
Variable json_loads : string -> option json.

(** The remote end of [requests.post]: its answer may depend on every
    earlier request. *)
Variable remote : list (Request * Response) -> Request -> Response.

Definition requests_post (r : Request) : M World Response :=
  fun w =>
    let answer := remote (http w) r in
    (Ok answer, mkWorld (http w ++ [(r, answer)]) (logs w)).

(** The first [try] block of the loop; [None] stands for the two
    exceptions its [except] clause catches, [JSONDecodeError] and
    [KeyError]. *)
Definition load_event (event : Event) : result (option (pyval * json)) :=
  match event !! "id", event !! "payload" with
  | Some row_id, Some payload =>
      match payload with
      | PStr s =>
          match json_loads s with
          | Some payload_dict => Ok (Some (row_id, payload_dict))
          | None => Ok None
          end
      | _ => Raise TypeError
      end
  | _, _ => Ok None
  end.

(** The body of the loop of [_validate_events_to_send]. *)
Definition validate_event (self : GoogleAnalyticsV4Hook) (event : Event)
  : M World Verdict :=
  (loaded <- lift (load_event event) ;;
   match loaded with
   | None => ret (Invalid GA4_HOOK_ERROR_INVALID_JSON_STRUCTURE)
   | Some (row_id, payload_dict) =>
       payload_dict' <- lift (json_setitem payload_dict "validationBehavior"
                                           (JString "ENFORCE_RECOMMENDATIONS")) ;;
       response <- requests_post (post_json (validate_url self) payload_dict') ;;
       match response with
       | ConnectionError => ret (Invalid RETRIABLE_GA4_HOOK_ERROR_HTTP_ERROR)
       | HttpResponse status_code validation_messages =>
           if negb (Z.eqb status_code 200) then
             ret (Invalid RETRIABLE_GA4_HOOK_ERROR_HTTP_ERROR)
           else
             match validation_messages with
             | [] => ret Valid
             | message :: _ =>
                 match find_error_type _ERROR_TYPES (fieldPath message)
                                       (description message) with
                 | Some error => ret (Invalid error)
                 | None =>
                     write_log (log_error row_id (fieldPath message)
                                          (description message)) ;;;
                     ret (Invalid GA4_HOOK_ERROR_INVALID_VALUES)
                 end
             end
       end
   end)%monad.

Fixpoint validate_events_loop (self : GoogleAnalyticsV4Hook)
    (indexed : list (nat * Event))
    (valid_events : list (nat * Event))
    (invalid_indices_and_errors : list (nat * ErrorNameIDMap))
  : M World (list (nat * Event) * list (nat * ErrorNameIDMap)) :=
  match indexed with
  | [] => ret (valid_events, invalid_indices_and_errors)
  | (i, event) :: rest =>
      (verdict <- validate_event self event ;;
       match verdict with
       | Valid =>
           validate_events_loop self rest (valid_events ++ [(i, event)])
                                invalid_indices_and_errors
       | Invalid error_num =>
           validate_events_loop self rest valid_events
                                (invalid_indices_and_errors ++ [(i, error_num)])
       end)%monad
  end.

Definition _validate_events_to_send (self : GoogleAnalyticsV4Hook)
    (events : list Event)
  : M World (list (nat * Event) * list (nat * ErrorNameIDMap)) :=
  validate_events_loop self (enumerate events) [] [].

Definition msg_send_failed : string :=
  "Sending payload to GA did not complete successfully.".

(** In dry-run mode the hook writes one line through [self.log], which
    the interface it inherits from provides, and sends nothing. *)
Definition _send_payload (self : GoogleAnalyticsV4Hook) (payload : pyval)
  : M World unit :=
  if dry_run self then
    write_log (log_info (post_url self) payload)
  else
    (response <- requests_post (post_data (post_url self) payload) ;;
     match response with
     | ConnectionError =>
         raise (DataOutConnectorSendUnsuccessfulError msg_send_failed
                  RETRIABLE_GA_HOOK_ERROR_HTTP_ERROR)
     | HttpResponse status_code _ =>
         if (Z.ltb status_code 200 || Z.leb 300 status_code)%bool then
           raise (DataOutConnectorSendUnsuccessfulError msg_send_failed
                    RETRIABLE_GA_HOOK_ERROR_HTTP_ERROR)
         else ret tt
     end)%monad.

(** The loop [for valid_event in valid_events] of [send_events]. *)
Fixpoint send_valid_events (self : GoogleAnalyticsV4Hook)
    (valid_events : list (nat * Event))
    (invalid_indices_and_errors : list (nat * ErrorNameIDMap))
  : M World (list (nat * ErrorNameIDMap)) :=
  match valid_events with
  | [] => ret invalid_indices_and_errors
  | valid_event :: rest =>
      (invalid' <-
         try_except
           (let event := snd valid_event in
            payload <- lift (getitem event "payload") ;;
            _send_payload self payload ;;;
            ret invalid_indices_and_errors)
           (fun error =>
              match error with
              | DataOutConnectorSendUnsuccessfulError _ error_num
              | DataOutConnectorValueError _ error_num =>
                  let index := fst valid_event in
                  Some (ret (invalid_indices_and_errors ++ [(index, error_num)]))
              | _ => None
              end) ;;
       send_valid_events self rest invalid')%monad
  end.

Definition send_events (self : GoogleAnalyticsV4Hook) (blob : Blob)
  : M World Blob :=
  (validated <- _validate_events_to_send self (events blob) ;;
   let valid_events := fst validated in
   let invalid_indices_and_errors := snd validated in
   invalid' <- send_valid_events self valid_events invalid_indices_and_errors ;;
   lift (append_failed_events blob invalid'))%monad.

End GA4SendEvents.

End ga4_hook.

(** ** Reading a run

    The functions below put names on what a run of [send_events] leaves
    behind: which events validation took, which it refused, and, from the
    recorded calls, which events were delivered. *)

(** The triple [append_failed_event] stores for the pair [(i, error)]. *)
Definition failure_record (events : list Event) (position : Z)
    (failure : nat * ErrorNameIDMap) : Z * Event * ErrorNameIDMap :=
  ((Z.of_nat (fst failure) + position)%Z, events !!! fst failure, snd failure).

(** The index a failed event is reported under. *)
Definition reported_index (f : Z * Event * ErrorNameIDMap) : Z := fst (fst f).

Definition reported_indices (blb : Blob) : list Z :=
  map reported_index (failed_events blb).

(** The index an input index is reported under. *)
Definition shifted (position : Z) (i : nat) : Z := (Z.of_nat i + position)%Z.

Module ads_run.
Import ads_ssd_hook.

(** The entry the identifier loop makes for one row of the table. *)
Definition identifier_entry (event : Event) (row : string * string)
  : option UserIdentifier :=
  mkUserIdentifier (snd row) <$> event !! fst row.

(** The check the identifier loop makes for one row of the table. *)
Definition identifier_checked (event : Event) (row : string * string) : Prop :=
  forall v, event !! fst row = Some v ->
            str_in (snd row) hashed_types = true ->
            _validate_sha256_pattern v = Ok tt.

(** An event without one of the mandatory fields. *)
Definition lacks_mandatory_field (event : Event) : Prop :=
  exists field, field ∈ store_sales_transaction_fields /\ event !! field = None.

(** The verdict of [_format_event] on an indexed event, as the validation
    loop files it. *)
Definition accepted (ie : nat * Event) : option (nat * StoreSalesTransaction) :=
  match _format_event (snd ie) with
  | Ok payload => Some (fst ie, payload)
  | Raise _ => None
  end.

Definition rejected (ie : nat * Event) : option (nat * ErrorNameIDMap) :=
  match _format_event (snd ie) with
  | Raise (DataOutConnectorValueError _ error_num) => Some (fst ie, error_num)
  | _ => None
  end.

(** [_format_event] raises something the validation loop does not catch. *)
Definition escapes (event : Event) : bool :=
  match _format_event event with
  | Ok _ => false
  | Raise (DataOutConnectorValueError _ _) => false
  | Raise _ => true
  end.

(** What the [except] clause of the sending loop adds for a batch, given
    the outcome of its call. *)
Definition batch_failures (batch : list (nat * StoreSalesTransaction))
    (outcome : result unit) : list (nat * ErrorNameIDMap) :=
  match outcome with
  | Raise (DataOutConnectorSendUnsuccessfulError _ error_num) =>
      map (fun event => (fst event, error_num)) batch
  | _ => []
  end.

(** The indices of a batch whose call returned. *)
Definition batch_delivered (batch : list (nat * StoreSalesTransaction))
    (outcome : result unit) : list nat :=
  match outcome with
  | Ok _ => map fst batch
  | Raise _ => []
  end.

(** An outcome the sending loop survives. *)
Definition survivable (outcome : result unit) : Prop :=
  match outcome with
  | Ok _ => True
  | Raise (DataOutConnectorSendUnsuccessfulError _ _) => True
  | Raise _ => False
  end.

Definition call_of (self : GoogleAdsStoreSalesConversionsHook)
    (batch : list (nat * StoreSalesTransaction)) : AdsCall :=
  mkAdsCall (external_upload_id self) (map snd batch) (upload_type self).

(** The number of transactions in the calls that returned. *)
Definition delivered_count (w : AdsWorld) : nat :=
  sum_list_with (fun cr => if is_ok (snd cr)
                           then length (call_user_list (fst cr)) else 0) w.

End ads_run.

Module ga4_run.
Import ga4_hook.

(** How the validation loop files an indexed event, given its verdict. *)
Definition keep_valid (x : nat * Event * Verdict) : option (nat * Event) :=
  match snd x with
  | Valid => Some (fst x)
  | Invalid _ => None
  end.

Definition keep_invalid (x : nat * Event * Verdict) : option (nat * ErrorNameIDMap) :=
  match snd x with
  | Valid => None
  | Invalid error_num => Some (fst (fst x), error_num)
  end.

(** A request to the validation endpoint. *)
Definition is_validation (self : GoogleAnalyticsV4Hook) (rr : Request * Response) : Prop :=
  match fst rr with
  | post_json url _ => url = validate_url self
  | post_data _ _ => False
  end.

Definition is_error_log (r : LogRecord) : Prop :=
  match r with
  | log_error _ _ _ => True
  | log_info _ _ => False
  end.

(** A response [_send_payload] takes for a success. *)
Definition is_success (r : Response) : bool :=
  match r with
  | ConnectionError => false
  | HttpResponse status_code _ =>
      (Z.leb 200 status_code && Z.ltb status_code 300)%bool
  end.

Definition payload_of (valid_event : nat * Event) : pyval :=
  default PNone (snd valid_event !! "payload").

(** What the sending loop does with a valid event: [None] when the hook
    runs dry, the answer to its one request otherwise. *)
Definition sent_request (self : GoogleAnalyticsV4Hook)
    (x : nat * Event * option Response) : option (Request * Response) :=
  match snd x with
  | Some answer => Some (post_data (post_url self) (payload_of (fst x)), answer)
  | None => None
  end.

Definition sent_log (self : GoogleAnalyticsV4Hook)
    (x : nat * Event * option Response) : option LogRecord :=
  match snd x with
  | Some _ => None
  | None => Some (log_info (post_url self) (payload_of (fst x)))
  end.

Definition send_failure (x : nat * Event * option Response)
  : option (nat * ErrorNameIDMap) :=
  match snd x with
  | Some answer =>
      if is_success answer then None
      else Some (fst (fst x), RETRIABLE_GA_HOOK_ERROR_HTTP_ERROR)
  | None => None
  end.

Definition send_delivered (x : nat * Event * option Response) : option nat :=
  match snd x with
  | Some answer => if is_success answer then Some (fst (fst x)) else None
  | None => Some (fst (fst x))
  end.

(** The message selects the table entry [property_name]. *)
Definition selects (message : ValidationMessage) (property_name : string) : Prop :=
  fieldPath message = Some property_name \/
  exists before after,
    description message = (before ++ property_name ++ after)%string.

End ga4_run.

(** Every input index went exactly one way: delivered, reported as failed
    after validation took it, or refused by validation; the report holds
    the refused indices then the failed ones, each once, each within the
    blob's range, and the three classes add up to the input. *)
Definition accounted (blb blb' : Blob) (delivered : list nat)
    (rejected failed : list (nat * ErrorNameIDMap)) : Prop :=
  failed_events blb' =
    failed_events blb
    ++ map (failure_record (events blb) (position blb)) (rejected ++ failed) /\
  delivered ++ failed.*1 ++ rejected.*1 ≡ₚ seq 0 (length (events blb)) /\
  NoDup (shifted (position blb) <$> (rejected ++ failed).*1) /\
  Forall (fun x => (position blb <= x
                    < position blb + Z.of_nat (length (events blb)))%Z)
         (shifted (position blb) <$> (rejected ++ failed).*1) /\
  length delivered + length (rejected ++ failed) = length (events blb).

Module ads_anatomy.
Import ads_ssd_hook ads_run.

Definition failures (valid : list (nat * StoreSalesTransaction))
    (outcomes : list (result unit)) : list (nat * ErrorNameIDMap) :=
  concat (zip_with batch_failures (_batch_generator valid) outcomes).

Definition delivered (valid : list (nat * StoreSalesTransaction))
    (outcomes : list (result unit)) : list nat :=
  concat (zip_with batch_delivered (_batch_generator valid) outcomes).

(** A run of [send_events] that returned [blb'], told by what validation
    gave and by the outcome of the call made for each batch. *)
Definition explains (self : GoogleAdsStoreSalesConversionsHook)
    (blb : Blob) (w : AdsWorld) (blb' : Blob) (w' : AdsWorld)
    (valid : list (nat * StoreSalesTransaction))
    (rejected : list (nat * ErrorNameIDMap))
    (outcomes : list (result unit)) : Prop :=
  _validate_and_prepare_events_to_send (events blb) = Ok (valid, rejected) /\
  length outcomes = length (_batch_generator valid) /\
  Forall survivable outcomes /\
  w' = w ++ zip_with (fun batch r => (call_of self batch, r))
                     (_batch_generator valid) outcomes /\
  blb' = mkBlob (events blb) (position blb)
           (failed_events blb
            ++ map (failure_record (events blb) (position blb))
                   (rejected ++ failures valid outcomes)).

End ads_anatomy.

Module ga4_anatomy.
Import ga4_hook ga4_run.

Definition failures (valid : list (nat * Event))
    (answers : list (option Response)) : list (nat * ErrorNameIDMap) :=
  omap send_failure (zip valid answers).

Definition delivered (valid : list (nat * Event))
    (answers : list (option Response)) : list nat :=
  omap send_delivered (zip valid answers).

(** A request of the sending loop. *)
Definition is_send (rr : Request * Response) : bool :=
  match fst rr with
  | post_data _ _ => true
  | post_json _ _ => false
  end.

(** A run of [send_events] that returned [blb'], told by what validation
    gave, the world [w1] validation left, and the answer to the request
    made for each valid event. *)
Definition explains (json_loads : string -> option json)
    (remote : list (Request * Response) -> Request -> Response)
    (self : GoogleAnalyticsV4Hook)
    (blb : Blob) (w : World) (blb' : Blob) (w' : World)
    (valid : list (nat * Event)) (rejected : list (nat * ErrorNameIDMap))
    (w1 : World) (answers : list (option Response)) : Prop :=
  _validate_events_to_send json_loads remote self (events blb) w
    = (Ok (valid, rejected), w1) /\
  filter is_send (http w1) = filter is_send (http w) /\
  length answers = length valid /\
  Forall (fun answer => answer = None <-> dry_run self = true) answers /\
  http w' = http w1 ++ omap (sent_request self) (zip valid answers) /\
  logs w' = logs w1 ++ omap (sent_log self) (zip valid answers) /\
  blb' = mkBlob (events blb) (position blb)
           (failed_events blb
            ++ map (failure_record (events blb) (position blb))
                   (rejected ++ failures valid answers)).

End ga4_anatomy.

(** ** Sample inputs *)

Definition sha_a : string :=
  "f660ab912ec121d1b1e928a0bb4bc61b15f5ad44d5efdc4e1c92a25e99b8e44a".

Definition good_event : Event :=
  <["email" := PStr sha_a]>
  (<["transactionTime" := PStr "20191030 122301 Asia/Calcutta"]>
  (<["microAmount" := PStr "50000000"]>
  (<["currencyCode" := PStr "EUR"]>
  (<["conversionName" := PStr "conversionName"]> ∅)))).

(** The pattern the conversion time is meant to follow, read on the
    whole string: eight digits, a space, six digits, a space, then zone
    characters up to the end. *)
Definition whole_string_date_time (s : string) : bool :=
  match consume is_decimal 8 s with
  | Some s1 =>
      match consume is_space 1 s1 with
      | Some s2 =>
          match consume is_decimal 6 s2 with
          | Some s3 =>
              match consume is_space 1 s3 with
              | Some (String c rest) =>
                  (is_zone_char c && all_chars is_zone_char rest)%bool
              | _ => false
              end
          | None => false
          end
      | None => false
      end
  | None => false
  end.

(** [good_event] with text after the time zone. *)
Definition trailing_time : string := "20191030 122301 Asia/Calcutta; tomorrow".

Definition event_trailing_time : Event :=
  <["transactionTime" := PStr trailing_time]> good_event.

(** [good_event] with the amount as a number, as a JSON record may carry
    it. *)
Definition event_int_amount : Event :=
  <["microAmount" := PInt 50000000]> good_event.

(** [good_event] with a number for the conversion time. *)
Definition event_int_time : Event :=
  <["transactionTime" := PInt 20191030122301]> good_event.

(** [good_event] without its amount. *)
Definition event_no_amount : Event := delete "microAmount" good_event.

(** A GA4 event whose payload is not a string. *)
Definition ga4_event_int_payload : Event :=
  <["id" := PInt 1]> (<["payload" := PInt 7]> ∅).

Definition ads_self : ads_ssd_hook.GoogleAdsStoreSalesConversionsHook :=
  ads_ssd_hook.mkAdsHook "1234567890" PNone.

(** Outcomes of the AdWords upload used in the examples: it returns; it
    fails on the first call with the send error an authentication
    failure is reported through, then returns; it fails on every call; it
    raises an exception [send_events] has no [except] clause for. *)
Definition unauthenticated : ErrorNameIDMap := ERROR_MEMBER "UNAUTHENTICATED".

Definition upload_accepts : ads_ssd_hook.AdsWorld -> ads_ssd_hook.AdsCall -> result unit :=
  fun _ _ => Ok tt.

Definition upload_fails_once : ads_ssd_hook.AdsWorld -> ads_ssd_hook.AdsCall -> result unit :=
  fun w _ =>
    match w with
    | [] => Raise (DataOutConnectorSendUnsuccessfulError
                     "invalid_client: Unauthorized" unauthenticated)
    | _ :: _ => Ok tt
    end.

Definition upload_fails : ads_ssd_hook.AdsWorld -> ads_ssd_hook.AdsCall -> result unit :=
  fun _ _ => Raise (DataOutConnectorSendUnsuccessfulError
                      "invalid_client: Unauthorized" unauthenticated).

Definition upload_raises : ads_ssd_hook.AdsWorld -> ads_ssd_hook.AdsCall -> result unit :=
  fun _ _ => Raise (DataOutConnectorAuthenticationError
                      "invalid_client: Unauthorized").

(** A GA4 hook, an event with the empty object for payload, and the part
    of [json.loads] the examples read. *)
Definition ga4_self : ga4_hook.GoogleAnalyticsV4Hook :=
  ga4_hook.mkGA4Hook false (Some "abcdABCDefghEFGH123456") ga4_hook.GTAG
    (Some "G-02ABCDEFGH") None
    (ga4_hook._build_api_url (Some "abcdABCDefghEFGH123456") ga4_hook.GTAG
       (Some "G-02ABCDEFGH") None true)
    (ga4_hook._build_api_url (Some "abcdABCDefghEFGH123456") ga4_hook.GTAG
       (Some "G-02ABCDEFGH") None false).

Definition ga4_event : Event :=
  <["id" := PInt 1]> (<["payload" := PStr "{}"]> ∅).

Definition json_loads_sample (s : string) : option json :=
  if String.eqb s "{}" then Some (JObject []) else None.


Definition remote_no_content
  : list (ga4_hook.Request * ga4_hook.Response) -> ga4_hook.Request
    -> ga4_hook.Response :=
  fun _ _ => ga4_hook.HttpResponse 204 [].

Definition remote_complains (message : ga4_hook.ValidationMessage)
  : list (ga4_hook.Request * ga4_hook.Response) -> ga4_hook.Request
    -> ga4_hook.Response :=
  fun _ _ => ga4_hook.HttpResponse 200 [message].

Definition ga4_start : ga4_hook.World := ga4_hook.mkWorld [] [].

(** A validation message about the items of an event. *)
Definition sample_message : ga4_hook.ValidationMessage :=
  ga4_hook.mkMessage None "Unable to parse value (events.params.items).".

(** What [_format_event] makes of [good_event]. *)
Definition good_transaction : ads_ssd_hook.StoreSalesTransaction :=
  ads_ssd_hook.mkTransaction
    [ads_ssd_hook.mkUserIdentifier "HASHED_EMAIL" (PStr sha_a)]
    (PStr "20191030 122301 Asia/Calcutta") (PStr "50000000")
    (PStr "EUR") (PStr "conversionName").

(** ** More ways to read an event and a run *)

(** Every field of the event holds a string, as in a record read from a
    CSV file. *)
Definition string_valued (event : Event) : Prop :=
  forall field v, event !! field = Some v -> exists s, v = PStr s.

(** The event has the four mandatory fields. *)
Definition has_mandatory_fields (event : Event) : Prop :=
  Forall (fun field => is_Some (event !! field))
         ads_ssd_hook.store_sales_transaction_fields.

(** The values the event has under hashed identifier fields are strings
    or [None]. *)
Definition hashed_values_are_text (event : Event) : Prop :=
  forall field type v,
    (field, type) ∈ ads_ssd_hook.identifier_types ->
    event !! field = Some v ->
    str_in type ads_ssd_hook.hashed_types = true ->
    v = PNone \/ exists s, v = PStr s.

Module ga4_more.
Import ga4_hook.

(** An event the first [try] block of the validation loop gives up on:
    it has no id, or no payload, or a payload string [json.loads] cannot
    parse. *)
Definition malformed (json_loads : string -> option json) (event : Event) : Prop :=
  event !! "id" = None \/ event !! "payload" = None \/
  exists text, event !! "payload" = Some (PStr text) /\ json_loads text = None.


End ga4_more.

(** More sample inputs: [good_event] without its only identifier; a GA4
    event whose payload is a JSON array; the part of [json.loads] that
    reads the two sample payloads; a remote end that accepts everything;
    the sample hook in dry-run mode. *)
Definition event_no_identifier : Event := delete "email" good_event.

Definition ga4_event_array : Event :=
  <["id" := PInt 2]> (<["payload" := PStr "[]"]> ∅).

Definition json_loads_two (s : string) : option json :=
  if String.eqb s "{}" then Some (JObject [])
  else if String.eqb s "[]" then Some (JArray [])
  else None.

Definition remote_accepts
  : list (ga4_hook.Request * ga4_hook.Response) -> ga4_hook.Request
    -> ga4_hook.Response :=
  fun _ _ => ga4_hook.HttpResponse 200 [].

Definition ga4_self_dry : ga4_hook.GoogleAnalyticsV4Hook :=
  ga4_hook.mkGA4Hook true (ga4_hook.api_secret ga4_self)
    (ga4_hook.payload_type ga4_self) (ga4_hook.measurement_id ga4_self)
    (ga4_hook.firebase_app_id ga4_self) (ga4_hook.post_url ga4_self)
    (ga4_hook.validate_url ga4_self).

(** * Properties *)

(** ** Batching *)

Section Batching.

Context {A : Type}.
Implicit Types (l : list A) (fuel start stop step : nat).

Lemma range_from_lookup fuel start stop step j i :
  range_from fuel start stop step !! j = Some i ->
  i = start + j * step /\ i < stop.
Proof.
  revert start j.
  induction fuel as [|fuel IH]; intros start j; simpl; [done|].
  destruct (Nat.ltb_spec start stop) as [Hlt|Hge]; [|done].
  destruct j as [|j]; simpl.
  - intros [= <-]. lia.
  - intros Hj. apply IH in Hj. lia.
Qed.

Lemma range_from_concat l fuel start step :
  0 < step -> length l - start <= fuel ->
  concat (map (fun i => slice l i (i + step))
              (range_from fuel start (length l) step)) = drop start l.
Proof.
  intros Hstep. revert start.
  induction fuel as [|fuel IH]; intros start Hfuel; simpl.
  - symmetry. apply drop_ge. lia.
  - destruct (Nat.ltb_spec start (length l)) as [Hlt|Hge]; simpl.
    + rewrite IH by lia. unfold slice.
      replace (start + step - start) with step by lia.
      rewrite <- (take_drop step (drop start l)) at 2.
      by rewrite drop_drop.
    + symmetry. apply drop_ge. lia.
Qed.

Lemma slice_length l i step :
  length (slice l i (i + step)) = step `min` (length l - i).
Proof.
  unfold slice. rewrite length_take, length_drop. f_equal. lia.
Qed.

End Batching.

Import ads_ssd_hook.

Lemma batch_generator_lookup {A} (events : list A) k batch :
  _batch_generator events !! k = Some batch ->
  k * _DEFAULT_BATCH_SIZE < length events /\
  batch = take _DEFAULT_BATCH_SIZE (drop (k * _DEFAULT_BATCH_SIZE) events).
Proof.
  unfold _batch_generator, py_range.
  generalize _DEFAULT_BATCH_SIZE as size. intros size.
  rewrite list_lookup_fmap. intros Hk.
  destruct (range_from _ _ _ _ !! k) as [i|] eqn:Hi; [|done].
  apply range_from_lookup in Hi as [-> Hlt]. simpl in *.
  injection Hk as <-. split; [done|].
  unfold slice. f_equal. lia.
Qed.

Lemma batch_generator_concat {A} (events : list A) :
  concat (_batch_generator events) = events.
Proof.
  unfold _batch_generator, py_range.
  rewrite range_from_concat; [done| |lia].
  unfold _DEFAULT_BATCH_SIZE. lia.
Qed.

Lemma batch_generator_nonempty {A} (events : list A) batch :
  batch ∈ _batch_generator events -> 0 < length batch <= _DEFAULT_BATCH_SIZE.
Proof.
  intros [k Hk]%list_elem_of_lookup.
  apply batch_generator_lookup in Hk as [Hlt ->].
  rewrite length_take, length_drop.
  assert (0 < _DEFAULT_BATCH_SIZE) by (unfold _DEFAULT_BATCH_SIZE; lia).
  lia.
Qed.

(** C9: the batch generator cuts the accepted events into contiguous
    chunks: chunk number [k] is the slice of (at most) 1000 events that
    starts at offset [1000 * k]; every chunk holds between 1 and 1000
    events, every chunk but the last exactly 1000, and the chunks put
    end to end give back the input list, indices included. *)
Theorem batch_generator_partitions_input :
  forall (events : list (nat * StoreSalesTransaction)),
    let batches := _batch_generator events in
    concat batches = events /\
    Forall (fun batch => 0 < length batch <= 1000) batches /\
    (forall k batch, batches !! k = Some batch ->
       batch = take 1000 (drop (1000 * k) events)) /\
    (forall k batch, batches !! k = Some batch -> S k < length batches ->
       length batch = 1000).
Proof.
  intros events batches. subst batches.
  change 1000 with _DEFAULT_BATCH_SIZE.
  split; [apply batch_generator_concat|].
  split; [apply Forall_forall; intros b Hb; apply (batch_generator_nonempty events); exact Hb|].
  split.
  - intros k batch Hk. apply batch_generator_lookup in Hk as [_ ->].
    by rewrite (Nat.mul_comm _ k).
  - intros k batch Hk Hlast.
    destruct (lookup_lt_is_Some_2 (_batch_generator events) (S k) Hlast) as [b' Hb'].
    apply batch_generator_lookup in Hk as [_ ->].
    apply batch_generator_lookup in Hb' as [Hlt _].
    rewrite length_take, length_drop.
    assert (0 < _DEFAULT_BATCH_SIZE) by (unfold _DEFAULT_BATCH_SIZE; lia).
    lia.
Qed.

(** ** Lists of indices *)

Lemma StronglySorted_lt_seq start len : StronglySorted lt (seq start len).
Proof.
  revert start. induction len as [|len IH]; intros start; simpl.
  - constructor.
  - constructor; [apply IH|].
    apply Forall_forall. intros k Hk%elem_of_seq. lia.
Qed.

Lemma sublist_StronglySorted {A} (R : relation A) (l1 l2 : list A) :
  l1 `sublist_of` l2 -> StronglySorted R l2 -> StronglySorted R l1.
Proof.
  induction 1 as [|x l1 l2 Hsub IH|x l1 l2 Hsub IH]; intros Hsorted.
  - constructor.
  - apply StronglySorted_inv in Hsorted as [Hs Hall].
    constructor; [by apply IH|].
    apply Forall_forall. intros y Hy.
    rewrite Forall_forall in Hall. apply Hall.
    by eapply elem_of_sublist.
  - apply StronglySorted_inv in Hsorted as [Hs _]. by apply IH.
Qed.

Lemma enumerate_fst {A} (l : list A) : (enumerate l).*1 = seq 0 (length l).
Proof. unfold enumerate. apply fst_zip. by rewrite length_seq. Qed.

Lemma enumerate_lookup {A} (l : list A) i x :
  (i, x) ∈ enumerate l <-> l !! i = Some x.
Proof.
  unfold enumerate. rewrite list_elem_of_lookup. split.
  - intros [k Hk]. apply lookup_zip_Some in Hk as [Hseq Hl].
    apply lookup_seq in Hseq as [-> _]. done.
  - intros Hl. exists i. apply lookup_zip_Some. split; [|done].
    apply lookup_seq. split; [done|]. by eapply lookup_lt_Some.
Qed.

Section Filing.

(** A loop files every item of [l] under [f] or under [g], keeping its
    key. *)
Context {X Y1 Y2 : Type} (key : X -> nat) (key1 : Y1 -> nat) (key2 : Y2 -> nat).
Context (f : X -> option Y1) (g : X -> option Y2).

Lemma omap_key_sublist (l : list X) :
  (forall x y, f x = Some y -> key1 y = key x) ->
  map key1 (omap f l) `sublist_of` map key l.
Proof.
  intros Hkey. induction l as [|x l IH]; simpl; [done|].
  destruct (f x) as [y|] eqn:Hfx; simpl.
  - rewrite (Hkey _ _ Hfx). by constructor.
  - by constructor.
Qed.

Lemma omap_key_partition (l : list X) :
  (forall x y, f x = Some y -> key1 y = key x) ->
  (forall x y, g x = Some y -> key2 y = key x) ->
  Forall (fun x => is_Some (f x) <-> g x = None) l ->
  map key1 (omap f l) ++ map key2 (omap g l) ≡ₚ map key l.
Proof.
  intros Hf Hg. induction 1 as [|x l Hx Hall IH]; simpl; [done|].
  destruct (f x) as [y|] eqn:Hfx; destruct (g x) as [z|] eqn:Hgx; simpl.
  - destruct Hx as [Hx _]. by specialize (Hx (ltac:(eauto))).
  - rewrite (Hf _ _ Hfx). by constructor.
  - rewrite (Hg _ _ Hgx). rewrite <- Permutation_middle. by constructor.
  - destruct Hx as [_ Hx]. by destruct (Hx eq_refl).
Qed.

End Filing.

(** ** The closing loop of [send_events] *)

Lemma append_failed_events_spec (blb : Blob) (invalid : list (nat * ErrorNameIDMap)) :
  Forall (fun failure => fst failure < length (events blb)) invalid ->
  append_failed_events blb invalid =
  Ok (mkBlob (events blb) (position blb)
        (failed_events blb
         ++ map (failure_record (events blb) (position blb)) invalid)).
Proof.
  intros Hall. revert blb Hall.
  induction invalid as [|[i error] invalid IH]; intros blb Hall; simpl.
  - rewrite app_nil_r. by destruct blb.
  - apply Forall_cons in Hall as [Hi Hall]. simpl in Hi.
    unfold list_getitem.
    destruct (lookup_lt_is_Some_2 _ _ Hi) as [raw Hraw]. rewrite Hraw. simpl.
    rewrite IH by done. simpl.
    rewrite <- app_assoc. simpl. unfold failure_record at 2. simpl.
    by rewrite (list_lookup_total_correct _ _ _ Hraw).
Qed.

Lemma append_failed_events_inv (blb blb' : Blob) (invalid : list (nat * ErrorNameIDMap)) :
  append_failed_events blb invalid = Ok blb' ->
  Forall (fun failure => fst failure < length (events blb)) invalid.
Proof.
  revert blb. induction invalid as [|[i error] invalid IH]; intros blb; simpl.
  - constructor.
  - unfold list_getitem.
    destruct (events blb !! i) as [raw|] eqn:Hraw; simpl; [|done].
    intros Hrest. constructor.
    + simpl. by eapply lookup_lt_Some.
    + by apply IH in Hrest.
Qed.

(** ** The store-sales hook, loop by loop *)

Module ads_facts.
Import ads_ssd_hook ads_run.

Lemma accepted_key ie y : accepted ie = Some y -> fst y = fst ie.
Proof. unfold accepted. destruct (_format_event _); by intros [= <-]. Qed.

Lemma rejected_key ie y : rejected ie = Some y -> fst y = fst ie.
Proof.
  unfold rejected. destruct (_format_event _) as [|[]]; by intros [= <-].
Qed.

Lemma accepted_or_rejected ie :
  escapes (snd ie) = false -> is_Some (accepted ie) <-> rejected ie = None.
Proof.
  unfold escapes, accepted, rejected.
  destruct (_format_event _) as [|[]]; try done;
    (split; [by intros [? ?]|]); intros; by eauto.
Qed.

Lemma validate_and_prepare_loop_total indexed valid invalid :
  Forall (fun ie => escapes (snd ie) = false) indexed ->
  validate_and_prepare_loop indexed valid invalid =
  Ok (valid ++ omap accepted indexed, invalid ++ omap rejected indexed).
Proof.
  intros Hall. revert valid invalid.
  induction Hall as [|[i event] indexed Hesc Hall IH]; intros valid invalid; simpl.
  - by rewrite !app_nil_r.
  - unfold accepted at 1, rejected at 1. unfold escapes in Hesc. simpl in *.
    destruct (_format_event event) as [payload|[]]; try done;
      rewrite IH; simpl; by rewrite <- app_assoc.
Qed.

Lemma validate_and_prepare_loop_returns indexed valid invalid out :
  validate_and_prepare_loop indexed valid invalid = Ok out ->
  Forall (fun ie => escapes (snd ie) = false) indexed.
Proof.
  revert valid invalid.
  induction indexed as [|[i event] indexed IH]; intros valid invalid; simpl.
  - constructor.
  - intros Hloop.
    assert (escapes event = false /\
            exists valid' invalid',
              validate_and_prepare_loop indexed valid' invalid' = Ok out)
      as [Hesc (valid' & invalid' & Hrest)].
    { unfold escapes.
      destruct (_format_event event) as [payload|[]]; try done; eauto. }
    constructor; [done|by eapply IH].
Qed.

Lemma enumerate_Forall {A} (P : A -> Prop) (l : list A) :
  Forall (fun ie => P (snd ie)) (enumerate l) <-> Forall P l.
Proof.
  rewrite !Forall_forall. split.
  - intros Hall x [i Hi]%list_elem_of_lookup.
    apply (Hall (i, x)). by apply enumerate_lookup.
  - intros Hall [i x] Hin%enumerate_lookup. simpl.
    apply Hall. by eapply list_elem_of_lookup_2.
Qed.

Lemma validate_and_prepare_returns (events : list Event) valid invalid :
  _validate_and_prepare_events_to_send events = Ok (valid, invalid) ->
  Forall (fun event => escapes event = false) events /\
  valid = omap accepted (enumerate events) /\
  invalid = omap rejected (enumerate events).
Proof.
  unfold _validate_and_prepare_events_to_send. intros Hloop.
  pose proof (validate_and_prepare_loop_returns _ _ _ _ Hloop) as Hall.
  rewrite (validate_and_prepare_loop_total _ _ _ Hall) in Hloop.
  injection Hloop as <- <-.
  by apply (enumerate_Forall (fun event => escapes event = false)) in Hall.
Qed.

Lemma validate_and_prepare_total (events : list Event) :
  Forall (fun event => escapes event = false) events ->
  _validate_and_prepare_events_to_send events =
  Ok (omap accepted (enumerate events), omap rejected (enumerate events)).
Proof.
  intros Hall. unfold _validate_and_prepare_events_to_send.
  apply (validate_and_prepare_loop_total _ [] []).
  by apply (enumerate_Forall (fun event => escapes event = false)).
Qed.

Lemma validation_partition (events : list Event) :
  Forall (fun event => escapes event = false) events ->
  (omap accepted (enumerate events)).*1 ++ (omap rejected (enumerate events)).*1
  ≡ₚ seq 0 (length events).
Proof.
  intros Hall. rewrite <- enumerate_fst.
  apply (omap_key_partition fst fst fst accepted rejected).
  - apply accepted_key.
  - apply rejected_key.
  - apply Forall_forall. intros [i event] Hin. apply accepted_or_rejected. simpl.
    rewrite Forall_forall in Hall. apply Hall.
    apply enumerate_lookup in Hin. by eapply list_elem_of_lookup_2.
Qed.

Lemma accepted_sublist (events : list Event) :
  (omap accepted (enumerate events)).*1 `sublist_of` seq 0 (length events).
Proof.
  rewrite <- enumerate_fst.
  apply (omap_key_sublist fst fst accepted), accepted_key.
Qed.

Lemma rejected_sublist (events : list Event) :
  (omap rejected (enumerate events)).*1 `sublist_of` seq 0 (length events).
Proof.
  rewrite <- enumerate_fst.
  apply (omap_key_sublist fst fst rejected), rejected_key.
Qed.

Section Sending.

Variable add_store_sales_conversions : AdsWorld -> AdsCall -> result unit.
Variable self : GoogleAdsStoreSalesConversionsHook.

(** Every batch is handed to [add_store_sales_conversions] once, in
    order, until a call raises something the loop does not catch. *)
Lemma send_batches_run batches invalid w res w' :
  send_batches add_store_sales_conversions self batches invalid w = (res, w') ->
  exists outcomes,
    w' = w ++ zip_with (fun batch r => (call_of self batch, r)) batches outcomes /\
    match res with
    | Ok invalid' =>
        length outcomes = length batches /\
        Forall survivable outcomes /\
        invalid' = invalid ++ concat (zip_with batch_failures batches outcomes)
    | Raise e =>
        exists before,
          outcomes = before ++ [Raise e] /\
          length outcomes <= length batches /\
          Forall survivable before /\ ~ survivable (Raise e)
    end.
Proof.
  revert invalid w.
  induction batches as [|batch batches IH]; intros invalid w; simpl.
  - unfold ret. intros [= <- <-]. exists []. simpl.
    by rewrite !app_nil_r.
  - unfold bind at 1, try_except, bind, call_add_store_sales_conversions, ret.
    fold (call_of self batch).
    destruct (add_store_sales_conversions w (call_of self batch))
      as [[]|e] eqn:Hcall.
    + intros Hrest. apply IH in Hrest as (outcomes & -> & Hres).
      exists (Ok tt :: outcomes). simpl.
      split; [by rewrite <- app_assoc|].
      destruct res as [invalid'|e].
      * destruct Hres as (Hlen & Hall & ->).
        split; [by rewrite Hlen|]. split; [by constructor|done].
      * destruct Hres as (before & -> & Hlen & Hall & Hno).
        exists (Ok tt :: before). simpl.
        split; [done|]. split; [lia|]. split; [by constructor|done].
    + destruct e as [m c|msg error_num|m|m| | | | |n].
      2: shelve.
      all: intros [= <- <-].
      all: eexists [_]; simpl; split;
             [by destruct batches|].
      all: exists []; simpl; split; [reflexivity|].
      all: split; [lia|]; split; [constructor|by intros []].
      Unshelve.
      intros Hrest. apply IH in Hrest as (outcomes & -> & Hres).
      exists (Raise (DataOutConnectorSendUnsuccessfulError msg error_num) :: outcomes).
      simpl. split; [by rewrite <- app_assoc|].
      destruct res as [invalid'|e].
      * destruct Hres as (Hlen & Hall & ->).
        split; [by rewrite Hlen|]. split; [by constructor|].
        by rewrite <- app_assoc.
      * destruct Hres as (before & -> & Hlen & Hall & Hno).
        eexists (_ :: before). simpl.
        split; [done|]. split; [lia|]. split; [by constructor|done].
Qed.

End Sending.

Lemma batch_outcomes_partition batches (outcomes : list (result unit)) :
  length outcomes = length batches ->
  Forall survivable outcomes ->
  concat (zip_with batch_delivered batches outcomes)
  ++ (concat (zip_with batch_failures batches outcomes)).*1
  ≡ₚ (concat batches).*1.
Proof.
  revert outcomes.
  induction batches as [|batch batches IH]; intros [|r outcomes]; simpl; try done.
  intros [= Hlen] [Hr Hall]%Forall_cons.
  specialize (IH outcomes Hlen Hall).
  rewrite !fmap_app, <- IH.
  destruct r as [[]|[]]; simpl in *; try done.
  - by rewrite <- app_assoc.
  - change (map ?f ?l) with (f <$> l).
    rewrite <- list_fmap_compose.
    apply Permutation_app_swap_app.
Qed.

Lemma batch_failures_sublist batches (outcomes : list (result unit)) :
  (concat (zip_with batch_failures batches outcomes)).*1
  `sublist_of` (concat batches).*1.
Proof.
  revert outcomes.
  induction batches as [|batch batches IH]; intros [|r outcomes]; simpl;
    try apply sublist_nil_l.
  rewrite !fmap_app. apply sublist_app; [|apply IH].
  destruct r as [[]|[]]; simpl; try apply sublist_nil_l.
  change (map ?f ?l) with (f <$> l).
  rewrite <- list_fmap_compose. done.
Qed.

Lemma batch_delivered_length batches (outcomes : list (result unit)) self :
  length (concat (zip_with batch_delivered batches outcomes)) =
  delivered_count (zip_with (fun batch r => (call_of self batch, r)) batches outcomes).
Proof.
  revert outcomes.
  induction batches as [|batch batches IH]; intros [|r outcomes]; simpl; try done.
  rewrite length_app, IH. unfold delivered_count. simpl. f_equal.
  destruct r; simpl; by rewrite ?length_map.
Qed.

End ads_facts.

(** ** What a report says about the input *)

Lemma shifted_inj position : Inj eq eq (shifted position).
Proof. intros i j. unfold shifted. lia. Qed.

Lemma reported_index_failure_record events position failures :
  map reported_index (map (failure_record events position) failures)
  = shifted position <$> failures.*1.
Proof.
  induction failures as [|[i e] failures IH]; simpl; [done|]. by rewrite IH.
Qed.

(** Validation splits the [n] input indices into [valid] and [rejected];
    sending splits [valid] into [delivered] and [failed]. *)
Lemma report_of_partition (n : nat) (position : Z)
    (valid rejected delivered failed : list nat) :
  valid ++ rejected ≡ₚ seq 0 n ->
  delivered ++ failed ≡ₚ valid ->
  delivered ++ failed ++ rejected ≡ₚ seq 0 n /\
  NoDup (shifted position <$> rejected ++ failed) /\
  Forall (fun x => (position <= x < position + Z.of_nat n)%Z)
         (shifted position <$> rejected ++ failed) /\
  length delivered + length (rejected ++ failed) = n.
Proof.
  intros Hvalid Hsent.
  assert (delivered ++ failed ++ rejected ≡ₚ seq 0 n) as Hall.
  { by rewrite app_assoc, Hsent. }
  assert (failed ++ rejected ≡ₚ rejected ++ failed) as Hswap
    by apply Permutation_app_comm.
  split; [done|]. split; [|split].
  - apply NoDup_fmap_2; [apply shifted_inj|].
    rewrite <- Hswap.
    pose proof (NoDup_seq 0 n) as Hnd. rewrite <- Hall in Hnd.
    by apply NoDup_app in Hnd as (_ & _ & Hnd).
  - apply Forall_forall. intros x (i & -> & Hi)%list_elem_of_fmap.
    assert (i ∈ seq 0 n) as Hseq%elem_of_seq.
    { rewrite <- Hall. apply elem_of_app. right. by rewrite Hswap. }
    unfold shifted. lia.
  - apply Permutation_length in Hall.
    rewrite length_seq, !length_app in Hall. rewrite length_app. lia.
Qed.

Module ads_returns.
Import ads_ssd_hook ads_run ads_facts.

Section Returns.

Variable add_store_sales_conversions : AdsWorld -> AdsCall -> result unit.
Variable self : GoogleAdsStoreSalesConversionsHook.

(** A run of [send_events], phase by phase. *)
Lemma send_events_run blb w res w' :
  send_events add_store_sales_conversions self blb w = (res, w') ->
  match _validate_and_prepare_events_to_send (events blb) with
  | Raise e => res = Raise e /\ w' = w
  | Ok (valid, invalid) =>
      exists outcomes,
        w' = w ++ zip_with (fun batch r => (call_of self batch, r))
                           (_batch_generator valid) outcomes /\
        match res with
        | Ok blb' =>
            length outcomes = length (_batch_generator valid) /\
            Forall survivable outcomes /\
            blb' = mkBlob (events blb) (position blb)
                     (failed_events blb
                      ++ map (failure_record (events blb) (position blb))
                             (invalid ++ concat (zip_with batch_failures
                                                   (_batch_generator valid) outcomes)))
        | Raise e =>
            exists before,
              outcomes = before ++ [Raise e] /\
              length outcomes <= length (_batch_generator valid) /\
              Forall survivable before /\ ~ survivable (Raise e)
        end
  end.
Proof.
  unfold send_events, bind at 1, lift at 1.
  destruct (_validate_and_prepare_events_to_send (events blb))
    as [[valid invalid]|e] eqn:Hval; [|by intros [= <- <-]].
  simpl. unfold bind at 1.
  destruct (send_batches _ _ _ _ _) as [[invalid'|e] w1] eqn:Hsend;
    apply send_batches_run in Hsend as (outcomes & -> & Hres).
  - destruct Hres as (Hlen & Hall & ->). unfold lift.
    apply validate_and_prepare_returns in Hval as (Hesc & Hvalid & Hinvalid).
    rewrite append_failed_events_spec.
    + intros [= <- <-]. exists outcomes. done.
    + apply Forall_forall. intros [i error] Hin. simpl.
      assert (i ∈ seq 0 (length (events blb))) as Hseq%elem_of_seq; [|lia].
      apply elem_of_app in Hin as [Hin|Hin].
      * eapply elem_of_sublist; [|apply rejected_sublist].
        rewrite <- Hinvalid. apply list_elem_of_fmap. by exists (i, error).
      * eapply elem_of_sublist; [|apply accepted_sublist].
        rewrite <- Hvalid.
        rewrite <- (batch_generator_concat valid) at 1.
        eapply elem_of_sublist; [|apply batch_failures_sublist].
        apply list_elem_of_fmap. by exists (i, error).
  - intros [= <- <-]. exists outcomes. done.
Qed.

End Returns.

End ads_returns.

(** ** Substrings *)

Lemma prefix_spec (s1 s2 : string) :
  String.prefix s1 s2 = true <-> exists rest, s2 = (s1 ++ rest)%string.
Proof.
  revert s2. induction s1 as [|c s1 IH]; intros [|c' s2]; simpl.
  - split; [|done]. intros _. by exists "".
  - split; [|done]. intros _. by exists (String c' s2).
  - split; [done|]. by intros [rest [=]].
  - destruct (Ascii.ascii_dec c c') as [->|Hne].
    + rewrite IH. split; intros [rest Hrest]; exists rest.
      * simpl. by rewrite Hrest.
      * simpl in Hrest. by injection Hrest.
    + split; [done|]. intros [rest [= Hc _]]. congruence.
Qed.

Lemma str_contains_spec (needle hay : string) :
  str_contains needle hay = true <->
  exists before after, hay = (before ++ needle ++ after)%string.
Proof.
  induction hay as [|c hay IH].
  - change (str_contains needle "")
      with (if String.prefix needle "" then true else false).
    destruct (String.prefix needle "") eqn:Hp.
    + apply prefix_spec in Hp as [rest Hrest]. split; [|done].
      intros _. by exists "", rest.
    + split; [done|]. intros (before & after & Heq).
      destruct before as [|? ?]; [|done]. simpl in Heq.
      assert (String.prefix needle "" = true) as Hp'; [|congruence].
      apply prefix_spec. by exists after.
  - change (str_contains needle (String c hay))
      with (if String.prefix needle (String c hay) then true
            else str_contains needle hay).
    destruct (String.prefix needle (String c hay)) eqn:Hp.
    + apply prefix_spec in Hp as [rest Hrest]. split; [|done].
      intros _. by exists "", rest.
    + rewrite IH. split.
      * intros (before & after & ->). by exists (String c before), after.
      * intros (before & after & Heq). destruct before as [|c' before].
        -- simpl in Heq.
           assert (String.prefix needle (String c hay) = true) as Hp'; [|congruence].
           apply prefix_spec. by exists after.
        -- simpl in Heq. injection Heq as <- ->. by exists before, after.
Qed.

(** ** The GA4 hook, loop by loop *)

Lemma omap_zip_cons {X B Y} (f : X * B -> option Y) x b (l : list X) (bs : list B) :
  omap f (zip (x :: l) (b :: bs)) =
  match f (x, b) with
  | Some y => y :: omap f (zip l bs)
  | None => omap f (zip l bs)
  end.
Proof. reflexivity. Qed.

Module ga4_facts.
Import ga4_hook ga4_run.

Section Facts.

Variable json_loads : string -> option json.
Variable remote : list (Request * Response) -> Request -> Response.
Variable self : GoogleAnalyticsV4Hook.

Local Abbreviation validate_event := (validate_event json_loads remote).
Local Abbreviation validate_events_loop := (validate_events_loop json_loads remote).
Local Abbreviation send_valid_events := (send_valid_events remote).
Local Abbreviation _send_payload := (_send_payload remote).

(** Validation talks to the validation endpoint only and writes error
    lines only. *)
Lemma validate_event_trace event w res w' :
  validate_event self event w = (res, w') ->
  exists requests lines,
    http w' = http w ++ requests /\ Forall (is_validation self) requests /\
    logs w' = logs w ++ lines /\ Forall is_error_log lines.
Proof.
  unfold validate_event, bind at 1, lift at 1.
  destruct (load_event json_loads event) as [[[row_id payload_dict]|]|e];
    cbv beta iota.
  - unfold bind at 1, lift at 1.
    destruct (json_setitem payload_dict _ _) as [payload_dict'|e]; cbv beta iota.
    + unfold bind at 1, requests_post.
      set (request := post_json _ _).
      destruct (remote (http w) request) as [|status_code messages] eqn:Hanswer.
      * unfold ret. intros [= <- <-]. simpl.
        exists [(request, ConnectionError)], []. rewrite app_nil_r.
        repeat split; by repeat constructor.
      * destruct (Z.eqb status_code 200); cbn [negb].
        -- destruct messages as [|message messages].
           ++ unfold ret. intros [= <- <-]. simpl.
              eexists [_], []. rewrite app_nil_r.
              repeat split; by repeat constructor.
           ++ destruct (find_error_type _ _ _) as [error|].
              ** unfold ret. intros [= <- <-]. simpl.
                 eexists [_], []. rewrite app_nil_r.
                 repeat split; by repeat constructor.
              ** unfold bind, write_log, ret. simpl. intros [= <- <-]. simpl.
                 eexists [_], [_].
                 repeat split; by repeat constructor.
        -- unfold ret. intros [= <- <-]. simpl.
           eexists [_], []. rewrite app_nil_r.
           repeat split; by repeat constructor.
    + intros [= <- <-]. exists [], []. by rewrite !app_nil_r.
  - unfold ret. intros [= <- <-]. exists [], []. by rewrite !app_nil_r.
  - intros [= <- <-]. exists [], []. by rewrite !app_nil_r.
Qed.

Lemma validate_event_valid event w w' :
  validate_event self event w = (Ok Valid, w') ->
  is_Some (event !! "payload").
Proof.
  unfold validate_event, bind at 1, lift at 1, load_event.
  destruct (event !! "id"); [|done].
  destruct (event !! "payload"); [by eauto|done].
Qed.

Lemma validate_events_loop_run indexed valid invalid w valid' invalid' w' :
  validate_events_loop self indexed valid invalid w = (Ok (valid', invalid'), w') ->
  exists verdicts requests lines,
    length verdicts = length indexed /\
    valid' = valid ++ omap keep_valid (zip indexed verdicts) /\
    invalid' = invalid ++ omap keep_invalid (zip indexed verdicts) /\
    Forall (fun valid_event => is_Some (snd valid_event !! "payload"))
           (omap keep_valid (zip indexed verdicts)) /\
    http w' = http w ++ requests /\ Forall (is_validation self) requests /\
    logs w' = logs w ++ lines /\ Forall is_error_log lines.
Proof.
  revert valid invalid w.
  induction indexed as [|[i event] indexed IH]; intros valid invalid w Hrun;
    simpl in Hrun; revert Hrun.
  - unfold ret. intros [= <- <- <-]. exists [], [], []. simpl.
    by rewrite !app_nil_r.
  - unfold bind at 1.
    destruct (validate_event self event w) as [[verdict|e] w1] eqn:Hstep; [|done].
    pose proof (validate_event_trace _ _ _ _ Hstep)
      as (rs1 & ls1 & Hh1 & Hv1 & Hl1 & He1).
    destruct verdict as [|error_num]; intros Hrest;
      apply IH in Hrest
        as (verdicts & rs & ls & Hlen & -> & -> & Hp & Hh & Hv & Hl & He).
    + apply validate_event_valid in Hstep.
      exists (Valid :: verdicts), (rs1 ++ rs), (ls1 ++ ls).
      rewrite !omap_zip_cons. cbn [keep_valid keep_invalid snd fst length].
      rewrite Hlen, Hh, Hh1, Hl, Hl1, <- !app_assoc.
      split_and!; try done; try by apply Forall_app.
      by constructor.
    + exists (Invalid error_num :: verdicts), (rs1 ++ rs), (ls1 ++ ls).
      rewrite !omap_zip_cons. cbn [keep_valid keep_invalid snd fst length].
      rewrite Hlen, Hh, Hh1, Hl, Hl1, <- !app_assoc.
      split_and!; try done; by apply Forall_app.
Qed.

Lemma keep_valid_key x y : keep_valid x = Some y -> fst y = fst (fst x).
Proof. unfold keep_valid. destruct (snd x); by intros [= <-]. Qed.

Lemma keep_invalid_key x y : keep_invalid x = Some y -> fst y = fst (fst x).
Proof. unfold keep_invalid. destruct (snd x); by intros [= <-]. Qed.

Lemma keep_valid_event indexed verdicts i event :
  (i, event) ∈ omap keep_valid (zip indexed verdicts) -> (i, event) ∈ indexed.
Proof.
  intros ([ie verdict] & Hin & Hkeep)%list_elem_of_omap.
  unfold keep_valid in Hkeep. simpl in Hkeep.
  destruct verdict; [|done]. injection Hkeep as ->.
  apply list_elem_of_lookup in Hin as [k Hk].
  apply lookup_zip_Some in Hk as [Hk _]. by eapply list_elem_of_lookup_2.
Qed.

Lemma zip_keys {B} (indexed : list (nat * Event)) (l : list B) :
  length l = length indexed ->
  map (fun x : nat * Event * B => fst (fst x)) (zip indexed l) = indexed.*1.
Proof.
  intros Hlen. change (map ?f ?l) with (f <$> l).
  rewrite <- (fst_zip indexed l) at 2 by lia.
  by rewrite <- list_fmap_compose.
Qed.

Lemma verdicts_partition indexed verdicts :
  length verdicts = length indexed ->
  (omap keep_valid (zip indexed verdicts)).*1
  ++ (omap keep_invalid (zip indexed verdicts)).*1 ≡ₚ indexed.*1.
Proof.
  intros Hlen. rewrite <- (zip_keys indexed verdicts Hlen).
  apply (omap_key_partition (fun x : nat * Event * Verdict => fst (fst x)) fst fst).
  - apply keep_valid_key.
  - apply keep_invalid_key.
  - apply Forall_forall. intros [ie []] _; unfold keep_valid, keep_invalid; simpl.
    + split; [done|]. by eauto.
    + split; [by intros [? ?]|done].
Qed.

Lemma keep_valid_sublist indexed verdicts :
  length verdicts = length indexed ->
  (omap keep_valid (zip indexed verdicts)).*1 `sublist_of` indexed.*1.
Proof.
  intros Hlen. rewrite <- (zip_keys indexed verdicts Hlen).
  apply (omap_key_sublist (fun x : nat * Event * Verdict => fst (fst x)) fst),
    keep_valid_key.
Qed.

Lemma keep_invalid_sublist indexed verdicts :
  length verdicts = length indexed ->
  (omap keep_invalid (zip indexed verdicts)).*1 `sublist_of` indexed.*1.
Proof.
  intros Hlen. rewrite <- (zip_keys indexed verdicts Hlen).
  apply (omap_key_sublist (fun x : nat * Event * Verdict => fst (fst x)) fst),
    keep_invalid_key.
Qed.

(** Every valid event is sent once, or logged once when the hook runs
    dry. *)
Lemma send_valid_events_run valid invalid w invalid' w' :
  Forall (fun valid_event => is_Some (snd valid_event !! "payload")) valid ->
  send_valid_events self valid invalid w = (Ok invalid', w') ->
  exists answers,
    length answers = length valid /\
    Forall (fun answer => answer = None <-> dry_run self = true) answers /\
    http w' = http w ++ omap (sent_request self) (zip valid answers) /\
    logs w' = logs w ++ omap (sent_log self) (zip valid answers) /\
    invalid' = invalid ++ omap send_failure (zip valid answers).
Proof.
  intros Hpayload. revert invalid w.
  induction Hpayload as [|[i event] valid [payload Hp] Hpayload IH];
    intros invalid w Hrun; simpl in Hrun; revert Hrun.
  - unfold ret. intros [= <- <-]. exists []. simpl. by rewrite !app_nil_r.
  - simpl in Hp.
    assert (payload_of (i, event) = payload) as Hpo
      by (unfold payload_of; simpl; by rewrite Hp).
    unfold bind at 1, try_except, bind at 1, lift, getitem. rewrite Hp.
    unfold bind at 1, _send_payload.
    destruct (dry_run self) eqn:Hdry.
    + unfold write_log, ret. intros Hrest.
      apply IH in Hrest as (answers & Hlen & Hall & Hh & Hl & ->).
      exists (None :: answers). rewrite !omap_zip_cons.
      cbn [sent_request sent_log send_failure snd fst length].
      rewrite Hpo, Hh, Hl, Hlen. cbn [http logs]. rewrite <- !app_assoc.
      split_and!; try done. by constructor.
    + unfold bind at 1, requests_post.
      destruct (remote (http w) (post_data (post_url self) payload))
        as [|status_code messages] eqn:Hanswer.
      * unfold raise, ret. intros Hrest.
        apply IH in Hrest as (answers & Hlen & Hall & Hh & Hl & ->).
        exists (Some ConnectionError :: answers). rewrite !omap_zip_cons.
        cbn [sent_request sent_log send_failure snd fst length is_success].
        rewrite Hpo, Hh, Hl, Hlen. cbn [http logs]. rewrite <- !app_assoc.
        split_and!; try done. by constructor.
      * destruct (Z.ltb status_code 200 || Z.leb 300 status_code)%bool eqn:Hstatus.
        -- unfold raise, ret. intros Hrest.
           apply IH in Hrest as (answers & Hlen & Hall & Hh & Hl & ->).
           exists (Some (HttpResponse status_code messages) :: answers).
           rewrite !omap_zip_cons.
           cbn [sent_request sent_log send_failure snd fst length is_success].
           replace (Z.leb 200 status_code && Z.ltb status_code 300)%bool with false
             by lia.
           rewrite Hpo, Hh, Hl, Hlen. cbn [http logs]. rewrite <- !app_assoc.
           split_and!; try done. by constructor.
        -- unfold ret. intros Hrest.
           apply IH in Hrest as (answers & Hlen & Hall & Hh & Hl & ->).
           exists (Some (HttpResponse status_code messages) :: answers).
           rewrite !omap_zip_cons.
           cbn [sent_request sent_log send_failure snd fst length is_success].
           replace (Z.leb 200 status_code && Z.ltb status_code 300)%bool with true
             by lia.
           rewrite Hpo, Hh, Hl, Hlen. cbn [http logs]. rewrite <- !app_assoc.
           split_and!; try done. by constructor.
Qed.

Lemma send_delivered_key x y : send_delivered x = Some y -> id y = fst (fst x).
Proof.
  unfold send_delivered. destruct (snd x) as [answer|]; [|by intros [= <-]].
  destruct (is_success answer); by intros [= <-].
Qed.

Lemma send_failure_key x y : send_failure x = Some y -> fst y = fst (fst x).
Proof.
  unfold send_failure. destruct (snd x) as [answer|]; [|done].
  destruct (is_success answer); by intros [= <-].
Qed.

Lemma answers_partition valid (answers : list (option Response)) :
  length answers = length valid ->
  omap send_delivered (zip valid answers)
  ++ (omap send_failure (zip valid answers)).*1 ≡ₚ valid.*1.
Proof.
  intros Hlen. rewrite <- (zip_keys valid answers Hlen).
  rewrite <- (map_id (omap send_delivered _)).
  apply (omap_key_partition
           (fun x : nat * Event * option Response => fst (fst x)) id fst).
  - apply send_delivered_key.
  - apply send_failure_key.
  - apply Forall_forall.
    intros [ie [answer|]] _; unfold send_delivered, send_failure; simpl.
    + destruct (is_success answer); [split; [done|by eauto]|].
      split; [by intros [? ?]|done].
    + split; [done|by eauto].
Qed.

Lemma send_failure_sublist valid (answers : list (option Response)) :
  length answers = length valid ->
  (omap send_failure (zip valid answers)).*1 `sublist_of` valid.*1.
Proof.
  intros Hlen. rewrite <- (zip_keys valid answers Hlen).
  apply (omap_key_sublist
           (fun x : nat * Event * option Response => fst (fst x)) fst),
    send_failure_key.
Qed.

(** A run of [send_events] that returns, phase by phase. *)
Lemma send_events_returns blb w blb' w' :
  send_events json_loads remote self blb w = (Ok blb', w') ->
  exists verdicts answers requests lines,
    let indexed := enumerate (events blb) in
    let valid := omap keep_valid (zip indexed verdicts) in
    let invalid := omap keep_invalid (zip indexed verdicts) in
    length verdicts = length (events blb) /\
    length answers = length valid /\
    Forall (fun answer => answer = None <-> dry_run self = true) answers /\
    Forall (is_validation self) requests /\ Forall is_error_log lines /\
    http w' = http w ++ requests ++ omap (sent_request self) (zip valid answers) /\
    logs w' = logs w ++ lines ++ omap (sent_log self) (zip valid answers) /\
    blb' = mkBlob (events blb) (position blb)
             (failed_events blb
              ++ map (failure_record (events blb) (position blb))
                     (invalid ++ omap send_failure (zip valid answers))).
Proof.
  unfold send_events, _validate_events_to_send, bind at 1.
  destruct (validate_events_loop _ _ _ _ _) as [[[valid invalid]|e] w1] eqn:Hval;
    [|done].
  apply validate_events_loop_run in Hval
    as (verdicts & requests & lines & Hlen & Hvalid & Hinvalid & Hp & Hh & Hv & Hl & He).
  simpl in Hvalid, Hinvalid. subst valid invalid. simpl.
  unfold bind at 1.
  destruct (send_valid_events _ _ _ _) as [[invalid'|e] w2] eqn:Hsend; [|done].
  apply send_valid_events_run in Hsend
    as (answers & Hlen2 & Hdry & Hh2 & Hl2 & ->); [|done].
  unfold lift. unfold enumerate in Hlen. rewrite length_zip, length_seq in Hlen.
  assert (length verdicts = length (events blb)) as Hlen' by lia.
  assert (length verdicts = length (enumerate (events blb))) as Hlen''.
  { unfold enumerate. rewrite length_zip, length_seq. lia. }
  rewrite append_failed_events_spec.
  - intros [= <- <-]. exists verdicts, answers, requests, lines. simpl.
    rewrite Hh2, Hl2, Hh, Hl, <- !app_assoc. done.
  - apply Forall_forall. intros [i error] Hin. simpl.
    assert (i ∈ seq 0 (length (events blb))) as Hseq%elem_of_seq; [|lia].
    rewrite <- enumerate_fst.
    apply elem_of_app in Hin as [Hin|Hin].
    + eapply elem_of_sublist; [|by apply keep_invalid_sublist].
      apply list_elem_of_fmap. by exists (i, error).
    + eapply elem_of_sublist; [|by apply keep_valid_sublist].
      eapply elem_of_sublist; [|by apply send_failure_sublist].
      apply list_elem_of_fmap. by exists (i, error).
Qed.

End Facts.

End ga4_facts.

(** ** [_format_event] *)

Module format_facts.
Import ads_ssd_hook ads_run.

Lemma collect_user_identifiers_ok event types acc ids :
  collect_user_identifiers event types acc = Ok ids <->
  Forall (identifier_checked event) types /\
  ids = acc ++ omap (identifier_entry event) types.
Proof.
  revert acc. induction types as [|[field type] types IH]; intros acc.
  - simpl. rewrite app_nil_r. split; [intros [= ->]|intros [_ ->]]; done.
  - rewrite Forall_cons. unfold identifier_checked at 1.
    cbn [collect_user_identifiers omap list_omap fst snd].
    unfold identifier_entry at 1. cbn [fst snd].
    destruct (event !! field) as [v|] eqn:Hv; cbn [fmap option_fmap option_map].
    + destruct (str_in type hashed_types) eqn:Hhashed.
      * destruct (_validate_sha256_pattern v) as [[]|e] eqn:Hcheck;
          cbn [rbind].
        -- rewrite IH, <- app_assoc. cbn [app]. split.
           ++ intros [Hall ->]. split; [|done]. split; [|done].
              intros v0 [= <-] _. done.
           ++ intros [[_ Hall] ->]. done.
        -- split; [done|]. intros [[Hc _] _].
           specialize (Hc v eq_refl eq_refl). congruence.
      * cbn [rbind]. rewrite IH, <- app_assoc. cbn [app]. split.
        -- intros [Hall ->]. split; [|done]. split; [|done].
           intros v0 _ ?. congruence.
        -- intros [[_ Hall] ->]. done.
    + rewrite IH. split.
      * intros [Hall ->]. split; [|done]. split; [|done]. intros v0 ?. congruence.
      * intros [[_ Hall] ->]. done.
Qed.

(** What an accepted event looks like. *)
Lemma format_event_ok event t :
  _format_event event = Ok t ->
  exists time amount,
    event !! "transactionTime" = Some (PStr time) /\
    match_RE_STRING_DATE_TIME time = true /\
    event !! "microAmount" = Some (PStr amount) /\
    str_isdigit amount = true /\
    event !! "currencyCode" = Some (currencyCode t) /\
    truthy (currencyCode t) = true /\
    event !! "conversionName" = Some (conversionName t) /\
    truthy (conversionName t) = true /\
    collect_user_identifiers event identifier_types [] = Ok (userIdentifiers t) /\
    userIdentifiers t <> [] /\
    transactionTime t = PStr time /\ microAmount t = PStr amount.
Proof.
  unfold _format_event.
  destruct (forallb _ _); cbn [negb]; [|done].
  destruct (collect_user_identifiers _ _ _) as [[|id ids]|e]; cbn [rbind];
    try done.
  unfold getitem.
  destruct (event !! "transactionTime") as [[| | |time|]|]; cbn [rbind re_match_date_time];
    try done.
  destruct (match_RE_STRING_DATE_TIME time) eqn:Htime; cbn [negb]; [|done].
  destruct (event !! "microAmount") as [[| | |amount|]|]; cbn [rbind py_isdigit];
    try done.
  destruct (str_isdigit amount) eqn:Hamount; cbn [negb]; [|done].
  destruct (event !! "currencyCode") as [currency|]; cbn [rbind]; [|done].
  destruct (truthy currency) eqn:Hcurrency; cbn [negb]; [|done].
  destruct (event !! "conversionName") as [name|]; cbn [rbind]; [|done].
  destruct (truthy name) eqn:Hname; cbn [negb rbind]; [|done].
  destruct (py_len name) as [n|]; cbn [rbind]; [|done].
  destruct (100 <? n); [done|].
  intros [= <-]. cbn. exists time, amount. by split_and!.
Qed.

(** Acceptance reads the four mandatory fields and the identifier loop,
    nothing else. *)
Lemma format_event_ext event event' t ids' :
  _format_event event = Ok t ->
  Forall (fun field => event' !! field = event !! field)
         store_sales_transaction_fields ->
  collect_user_identifiers event' identifier_types [] = Ok ids' ->
  ids' <> [] ->
  _format_event event' =
  Ok (mkTransaction ids' (transactionTime t) (microAmount t)
                    (currencyCode t) (conversionName t)).
Proof.
  intros Hok Hsame Hids Hne.
  repeat (apply Forall_cons in Hsame as [? Hsame]).
  revert Hok. unfold _format_event, has_key, getitem.
  cbn [forallb store_sales_transaction_fields].
  repeat match goal with H : event' !! _ = _ |- _ => rewrite H; clear H end.
  rewrite Hids.
  destruct (event !! "transactionTime") as [time|]; cbn [andb negb]; [|done].
  destruct (event !! "microAmount") as [amount|]; cbn [andb negb]; [|done].
  destruct (event !! "currencyCode") as [currency|]; cbn [andb negb]; [|done].
  destruct (event !! "conversionName") as [name|]; cbn [andb negb]; [|done].
  destruct (collect_user_identifiers event _ _) as [[|id ids]|e]; cbn [rbind];
    try done.
  destruct ids' as [|id' ids']; [done|].
  destruct (re_match_date_time time) as [[]|]; cbn [rbind negb]; try done.
  destruct (py_isdigit amount) as [[]|]; cbn [rbind negb]; try done.
  destruct (truthy currency); cbn [rbind negb]; [|done].
  destruct (truthy name); cbn [rbind negb]; [|done].
  destruct (py_len name) as [n|]; cbn [rbind negb]; [|done].
  destruct (100 <? n); [done|].
  by intros [= <-].
Qed.

End format_facts.

Lemma identifier_checked_insert event field v row :
  ads_run.identifier_checked event row ->
  (fst row = field -> str_in (snd row) hashed_types = false) ->
  ads_run.identifier_checked (<[field := v]> event) row.
Proof.
  intros Hchecked Hfree v0 Hlookup Hhashed.
  destruct (decide (fst row = field)) as [Heq|Hne].
  - rewrite Hfree in Hhashed; done.
  - rewrite lookup_insert_ne in Hlookup by done. by apply Hchecked.
Qed.

(** C10: for an accepted event, [userIdentifiers] holds, in the order of
    the table, one entry per identifier field the event has, with the
    field's own value and the type the table gives the field; the table
    gives [firstName] the type [HASHED_LAST_NAME] and [lastName] the type
    [HASHED_FIRST_NAME]; and the fields [city], [state], [zip] and
    [country] pass whatever their value is: putting any value there
    leaves the event accepted and the value is carried as it is. *)
Theorem format_event_user_identifiers :
  forall (event : Event) (t : StoreSalesTransaction),
    _format_event event = Ok t ->
    userIdentifiers t =
      omap (fun row => mkUserIdentifier (snd row) <$> event !! fst row)
           identifier_types /\
    (forall v, event !! "firstName" = Some v ->
               mkUserIdentifier "HASHED_LAST_NAME" v ∈ userIdentifiers t) /\
    (forall v, event !! "lastName" = Some v ->
               mkUserIdentifier "HASHED_FIRST_NAME" v ∈ userIdentifiers t) /\
    (forall field type v,
        (field, type) ∈ [("city", "CITY"); ("state", "STATE");
                         ("zip", "ZIPCODE"); ("country", "COUNTRY_CODE")] ->
        exists t', _format_event (<[field := v]> event) = Ok t' /\
                   mkUserIdentifier type v ∈ userIdentifiers t').
Proof.
  intros event t Hok.
  pose proof (format_facts.format_event_ok _ _ Hok)
    as (time & amount & Htime & _ & Hamount & _ & Hcur & _ & Hname & _ & Hids & _).
  apply format_facts.collect_user_identifiers_ok in Hids as [Hchecked Hids].
  rewrite app_nil_l in Hids.
  assert (forall field type v, (field, type) ∈ identifier_types ->
            event !! field = Some v ->
            mkUserIdentifier type v ∈ userIdentifiers t) as Hentry.
  { intros field type v Hrow Hv. rewrite Hids.
    apply list_elem_of_omap. exists (field, type). split; [done|].
    unfold ads_run.identifier_entry. simpl. by rewrite Hv. }
  split; [exact Hids|].
  split; [intros v; apply Hentry; unfold identifier_types;
          repeat first [apply list_elem_of_here | apply list_elem_of_further]|].
  split; [intros v; apply Hentry; unfold identifier_types;
          repeat first [apply list_elem_of_here | apply list_elem_of_further]|].
  intros field type v Hrow.
  set (event' := <[field := v]> event).
  assert ((field, type) ∈ identifier_types /\
          Forall (fun f => f <> field) store_sales_transaction_fields /\
          forall row, row ∈ identifier_types -> fst row = field ->
                      str_in (snd row) hashed_types = false)
    as (Hin & Hother & Hfree).
  { clear -Hrow.
    repeat (apply elem_of_cons in Hrow as [[= -> ->]|Hrow]);
      [| | | |by apply elem_of_nil in Hrow].
    all: split;
      [unfold identifier_types;
       repeat first [apply list_elem_of_here | apply list_elem_of_further]|].
    all: split; [unfold store_sales_transaction_fields;
                 repeat constructor; done|].
    all: intros row Hr Hfst; unfold identifier_types in Hr;
      repeat (apply elem_of_cons in Hr as [->|Hr]);
      try (by apply elem_of_nil in Hr); try done. }
  assert (Forall (ads_run.identifier_checked event') identifier_types)
    as Hchecked'.
  { rewrite Forall_forall in Hchecked. apply Forall_forall. intros row Hr.
    apply identifier_checked_insert; [by apply Hchecked|by apply Hfree]. }
  set (ids' := omap (ads_run.identifier_entry event') identifier_types).
  assert (mkUserIdentifier type v ∈ ids') as Hmem.
  { apply list_elem_of_omap. exists (field, type). split; [done|].
    unfold ads_run.identifier_entry, event'. simpl.
    by rewrite lookup_insert_eq. }
  exists (mkTransaction ids' (transactionTime t) (microAmount t)
            (currencyCode t) (conversionName t)).
  split; [|done].
  apply (format_facts.format_event_ext event); [done| | |].
  - eapply Forall_impl; [exact Hother|]. intros f Hf. simpl.
    unfold event'. by rewrite lookup_insert_ne.
  - apply format_facts.collect_user_identifiers_ok. done.
  - intros Hnil. rewrite Hnil in Hmem. by apply elem_of_nil in Hmem.
Qed.

(** ** Events without a mandatory field *)

Lemma format_event_missing_field event :
  ads_run.lacks_mandatory_field event ->
  _format_event event =
  Raise (DataOutConnectorValueError msg_missing_mandatory
           ADS_SSD_HOOK_ERROR_MISSING_MANDATORY_FIELDS).
Proof.
  intros (field & Hin & Hnone). unfold _format_event.
  assert (forallb (has_key event) store_sales_transaction_fields = false) as ->;
    [|done].
  apply not_true_iff_false. intros Hall.
  rewrite forallb_forall in Hall.
  specialize (Hall field). unfold has_key in Hall. rewrite Hnone in Hall.
  apply list_elem_of_In in Hin. by specialize (Hall Hin).
Qed.

Lemma all_rejected_for_missing_field (events : list Event) start :
  Forall ads_run.lacks_mandatory_field events ->
  omap ads_run.accepted (zip (seq start (length events)) events) = [] /\
  omap ads_run.rejected (zip (seq start (length events)) events) =
    (fun i => (i, ADS_SSD_HOOK_ERROR_MISSING_MANDATORY_FIELDS))
      <$> seq start (length events).
Proof.
  intros Hall. revert start.
  induction Hall as [|event events Hevent Hall IH]; intros start; [done|].
  cbn [length seq]. rewrite !omap_zip_cons.
  unfold ads_run.accepted at 1, ads_run.rejected at 1. cbn [fst snd].
  rewrite (format_event_missing_field _ Hevent).
  destruct (IH (S start)) as [-> ->]. done.
Qed.

Lemma batch_generator_nil {A} : _batch_generator (@nil A) = [].
Proof. reflexivity. Qed.

(** C7: an event that lacks one of [transactionTime], [microAmount],
    [currencyCode], [conversionName] is refused with the one
    missing-mandatory-fields code, in a message that names the four
    fields; no transaction handed to [add_store_sales_conversions] comes
    from such an event; and when every event of the blob lacks a field
    the call makes no upload at all and reports every index with that
    code. *)
Theorem missing_mandatory_field_never_dispatched :
  (forall event : Event,
      ads_run.lacks_mandatory_field event ->
      _format_event event =
      Raise (DataOutConnectorValueError
               "Event is missing at least one mandatory field ['transactionTime', 'microAmount', 'currencyCode', 'conversionName']"
               ADS_SSD_HOOK_ERROR_MISSING_MANDATORY_FIELDS)) /\
  (forall add_store_sales_conversions self blb w res w' call outcome t,
      send_events add_store_sales_conversions self blb w = (res, w') ->
      (call, outcome) ∈ drop (length w) w' ->
      t ∈ call_user_list call ->
      exists i event,
        events blb !! i = Some event /\ _format_event event = Ok t /\
        ~ ads_run.lacks_mandatory_field event) /\
  (forall add_store_sales_conversions self blb w,
      Forall ads_run.lacks_mandatory_field (events blb) ->
      send_events add_store_sales_conversions self blb w =
      (Ok (mkBlob (events blb) (position blb)
             (failed_events blb
              ++ ((fun i => failure_record (events blb) (position blb)
                              (i, ADS_SSD_HOOK_ERROR_MISSING_MANDATORY_FIELDS))
                    <$> seq 0 (length (events blb))))),
       w)).
Proof.
  split; [exact format_event_missing_field|]. split.
  - intros add self blb w res w' call outcome t Hrun Hcall Ht.
    apply ads_returns.send_events_run in Hrun.
    destruct (_validate_and_prepare_events_to_send (events blb))
      as [[valid invalid]|e] eqn:Hval.
    + destruct Hrun as (outcomes & -> & _).
      rewrite drop_app_length in Hcall.
      apply list_elem_of_lookup in Hcall as [k Hk].
      apply lookup_zip_with_Some in Hk as (batch & r & [= -> ->] & Hbatch & _).
      simpl in Ht. change (map ?f ?l) with (f <$> l) in Ht.
      apply list_elem_of_fmap in Ht as ([i t'] & -> & Hin). simpl.
      assert ((i, t') ∈ valid) as Hvalid.
      { rewrite <- (batch_generator_concat valid).
        apply list_elem_of_In, in_concat. exists batch.
        split; apply list_elem_of_In; [|done].
        by eapply list_elem_of_lookup_2. }
      apply ads_facts.validate_and_prepare_returns in Hval as (_ & -> & _).
      apply list_elem_of_omap in Hvalid as ([j event] & Hje & Hacc).
      unfold ads_run.accepted in Hacc. simpl in Hacc.
      destruct (_format_event event) as [t''|] eqn:Hfmt; [|done].
      injection Hacc as <- <-.
      exists j, event. split; [by apply enumerate_lookup|]. split; [done|].
      intros Hlacks. rewrite (format_event_missing_field _ Hlacks) in Hfmt. done.
    + destruct Hrun as [_ ->]. rewrite drop_ge in Hcall by lia.
      by apply elem_of_nil in Hcall.
  - intros add self blb w Hall. unfold send_events, bind at 1, lift at 1.
    rewrite ads_facts.validate_and_prepare_total.
    + unfold enumerate.
      destruct (all_rejected_for_missing_field (events blb) 0 Hall) as [-> ->].
      cbn [fst snd]. rewrite batch_generator_nil.
      cbn [send_batches]. unfold bind, ret, lift.
      rewrite append_failed_events_spec.
      * by rewrite <- list_fmap_compose.
      * apply Forall_forall. intros [i error] (j & [= -> ->] & Hj)%list_elem_of_fmap.
        apply elem_of_seq in Hj. simpl. lia.
    + eapply Forall_impl; [exact Hall|]. intros event Hlacks.
      unfold ads_run.escapes. by rewrite (format_event_missing_field _ Hlacks).
Qed.

(** ** Two inputs the validation mishandles *)

(** C8: the time pattern is applied with [re.match], which anchors it at
    the start only: a conversion time with any text after the zone is
    accepted and carried into the transaction as it is, although the
    whole string does not follow the pattern. *)
Theorem format_event_accepts_trailing_text :
  whole_string_date_time trailing_time = false /\
  match_RE_STRING_DATE_TIME trailing_time = true /\
  exists t, _format_event event_trailing_time = Ok t /\
            transactionTime t = PStr trailing_time.
Proof.
  split; [by vm_compute|]. split; [by vm_compute|].
  eexists. split; [vm_compute; reflexivity|]. reflexivity.
Qed.

(** C3: a field of an unexpected type is not reported as a failed event:
    [_format_event] raises an [AttributeError] (amount) or a [TypeError]
    (conversion time) that the validation loop does not catch, and
    [send_events] ends with that exception, whatever the other events
    are, before any upload; the GA4 hook does the same on a payload that
    is not a string. *)
Theorem send_events_aborts_on_unexpected_type :
  (forall add_store_sales_conversions self position failed w,
      ads_ssd_hook.send_events add_store_sales_conversions self
        (mkBlob [good_event; event_int_amount] position failed) w
      = (Raise AttributeError, w)) /\
  (forall add_store_sales_conversions self position failed w,
      ads_ssd_hook.send_events add_store_sales_conversions self
        (mkBlob [good_event; event_int_time] position failed) w
      = (Raise TypeError, w)) /\
  (forall json_loads remote self position failed w,
      ga4_hook.send_events json_loads remote self
        (mkBlob [ga4_event_int_payload] position failed) w
      = (Raise TypeError, w)).
Proof.
  split; [|split].
  - intros add self position failed w.
    unfold ads_ssd_hook.send_events, bind at 1, lift at 1. cbn [events].
    assert (_validate_and_prepare_events_to_send [good_event; event_int_amount]
            = Raise AttributeError) as -> by (by vm_compute).
    done.
  - intros add self position failed w.
    unfold ads_ssd_hook.send_events, bind at 1, lift at 1. cbn [events].
    assert (_validate_and_prepare_events_to_send [good_event; event_int_time]
            = Raise TypeError) as -> by (by vm_compute).
    done.
  - intros json_loads remote self position failed w.
    unfold ga4_hook.send_events, bind at 1, ga4_hook._validate_events_to_send.
    cbn [events].
    assert (ga4_hook.load_event json_loads ga4_event_int_payload = Raise TypeError)
      as Hload by (by vm_compute).
    unfold enumerate. cbn [length seq zip zip_with ga4_hook.validate_events_loop].
    unfold bind at 1, ga4_hook.validate_event, bind at 1, lift at 1.
    rewrite Hload. done.
Qed.

(** ** Runs that return *)

Lemma ads_send_events_explained add_store_sales_conversions self blb w blb' w' :
  ads_ssd_hook.send_events add_store_sales_conversions self blb w = (Ok blb', w') ->
  exists valid rejected outcomes,
    ads_anatomy.explains self blb w blb' w' valid rejected outcomes /\
    valid.*1 ++ rejected.*1 ≡ₚ seq 0 (length (events blb)) /\
    valid.*1 `sublist_of` seq 0 (length (events blb)) /\
    rejected.*1 `sublist_of` seq 0 (length (events blb)) /\
    ads_anatomy.delivered valid outcomes ++ (ads_anatomy.failures valid outcomes).*1
      ≡ₚ valid.*1 /\
    (ads_anatomy.failures valid outcomes).*1 `sublist_of` valid.*1.
Proof.
  intros Hrun. apply ads_returns.send_events_run in Hrun.
  destruct (_validate_and_prepare_events_to_send (events blb))
    as [[valid rejected]|e] eqn:Hval; [|by destruct Hrun].
  destruct Hrun as (outcomes & Hw & Hlen & Hall & Hblb).
  exists valid, rejected, outcomes.
  pose proof (ads_facts.validate_and_prepare_returns _ _ _ Hval)
    as (Hesc & Hvalid & Hrejected).
  split; [by split_and!|].
  split; [rewrite Hvalid, Hrejected; by apply ads_facts.validation_partition|].
  split; [rewrite Hvalid; by apply ads_facts.accepted_sublist|].
  split; [rewrite Hrejected; by apply ads_facts.rejected_sublist|].
  unfold ads_anatomy.delivered, ads_anatomy.failures.
  assert (valid.*1 = (concat (_batch_generator valid)).*1) as ->
    by (by rewrite batch_generator_concat).
  split; [by apply ads_facts.batch_outcomes_partition|].
  apply ads_facts.batch_failures_sublist.
Qed.

Lemma validation_requests_are_not_sends self requests :
  Forall (ga4_run.is_validation self) requests ->
  filter ga4_anatomy.is_send requests = [].
Proof.
  induction 1 as [|[[url body|url data] answer] requests Hx Hall IH]; [done| |done].
  rewrite filter_cons_False; [done|]. by intros ?.
Qed.

Lemma ga4_send_events_explained json_loads remote self blb w blb' w' :
  ga4_hook.send_events json_loads remote self blb w = (Ok blb', w') ->
  exists valid rejected w1 answers,
    ga4_anatomy.explains json_loads remote self blb w blb' w'
                         valid rejected w1 answers /\
    valid.*1 ++ rejected.*1 ≡ₚ seq 0 (length (events blb)) /\
    valid.*1 `sublist_of` seq 0 (length (events blb)) /\
    rejected.*1 `sublist_of` seq 0 (length (events blb)) /\
    ga4_anatomy.delivered valid answers ++ (ga4_anatomy.failures valid answers).*1
      ≡ₚ valid.*1 /\
    (ga4_anatomy.failures valid answers).*1 `sublist_of` valid.*1.
Proof.
  unfold ga4_hook.send_events, ga4_hook._validate_events_to_send, bind at 1.
  destruct (ga4_hook.validate_events_loop _ _ _ _ _ _ _)
    as [[[valid rejected]|e] w1] eqn:Hval; [|done].
  pose proof (ga4_facts.validate_events_loop_run _ _ _ _ _ _ _ _ _ _ Hval)
    as (verdicts & requests & lines & Hlen & Hvalid & Hrejected
        & Hp & Hh & Hv & Hl & He).
  simpl in Hvalid, Hrejected. cbn [fst snd]. unfold bind at 1.
  destruct (ga4_hook.send_valid_events _ _ _ _ _) as [[invalid'|e] w2] eqn:Hsend;
    [|done].
  apply ga4_facts.send_valid_events_run in Hsend
    as (answers & Hlen2 & Hdry & Hh2 & Hl2 & ->); [|by rewrite Hvalid].
  assert (length verdicts = length (events blb)) as Hlen'.
  { unfold enumerate in Hlen. rewrite length_zip, length_seq in Hlen. lia. }
  assert (valid.*1 `sublist_of` seq 0 (length (events blb))) as Hsub1.
  { rewrite <- enumerate_fst, Hvalid. by apply ga4_facts.keep_valid_sublist. }
  assert (rejected.*1 `sublist_of` seq 0 (length (events blb))) as Hsub2.
  { rewrite <- enumerate_fst, Hrejected. by apply ga4_facts.keep_invalid_sublist. }
  assert ((ga4_anatomy.failures valid answers).*1 `sublist_of` valid.*1) as Hsub3.
  { by apply ga4_facts.send_failure_sublist. }
  unfold lift. rewrite append_failed_events_spec.
  - intros [= <- <-]. exists valid, rejected, w1, answers.
    split.
    { unfold ga4_anatomy.explains, ga4_hook._validate_events_to_send.
      split_and!; try done.
      rewrite Hh, filter_app, (validation_requests_are_not_sends self requests Hv).
      by rewrite app_nil_r. }
    split.
    { rewrite Hvalid, Hrejected, <- enumerate_fst.
      by apply ga4_facts.verdicts_partition. }
    split_and!; try done. by apply ga4_facts.answers_partition.
  - apply Forall_forall. intros [i error] Hin. simpl.
    assert (i ∈ seq 0 (length (events blb))) as Hseq%elem_of_seq; [|lia].
    apply elem_of_app in Hin as [Hin|Hin].
    + eapply elem_of_sublist; [|exact Hsub2].
      apply list_elem_of_fmap. by exists (i, error).
    + eapply elem_of_sublist; [|exact Hsub1].
      eapply elem_of_sublist; [|exact Hsub3].
      apply list_elem_of_fmap. by exists (i, error).
Qed.

Lemma accounted_of_partition blb blb' valid delivered rejected failed :
  failed_events blb' =
    failed_events blb
    ++ map (failure_record (events blb) (position blb)) (rejected ++ failed) ->
  valid ++ rejected.*1 ≡ₚ seq 0 (length (events blb)) ->
  delivered ++ failed.*1 ≡ₚ valid ->
  accounted blb blb' delivered rejected failed.
Proof.
  intros Hreport Hvalid Hsent.
  destruct (report_of_partition _ (position blb) _ _ _ _ Hvalid Hsent)
    as (Hall & Hnd & Hrange & Hcount).
  unfold accounted. split_and!.
  - exact Hreport.
  - exact Hall.
  - by rewrite fmap_app.
  - by rewrite fmap_app.
  - rewrite length_app, !length_fmap in Hcount. rewrite length_app. lia.
Qed.

(** ** The report of [send_events] *)

(** C1, on the runs that return: every input index is delivered,
    reported as failed after validation took it, or refused by
    validation, and exactly one of the three; the report holds each
    refused or failed index once, shifted by the blob's position, within
    [position, position + len(events)); delivered plus reported is the
    number of input events.  For the store-sales hook the delivered
    events are those of the batches whose upload returned, for the GA4
    hook those whose request was answered with a 2xx status (or that a
    dry run logged). *)
Theorem send_events_accounts_for_every_index :
  (forall add_store_sales_conversions self blb w blb' w',
      ads_ssd_hook.send_events add_store_sales_conversions self blb w
        = (Ok blb', w') ->
      exists valid rejected outcomes,
        ads_anatomy.explains self blb w blb' w' valid rejected outcomes /\
        accounted blb blb' (ads_anatomy.delivered valid outcomes) rejected
                  (ads_anatomy.failures valid outcomes) /\
        length (ads_anatomy.delivered valid outcomes)
          = ads_run.delivered_count (drop (length w) w')) /\
  (forall json_loads remote self blb w blb' w',
      ga4_hook.send_events json_loads remote self blb w = (Ok blb', w') ->
      exists valid rejected w1 answers,
        ga4_anatomy.explains json_loads remote self blb w blb' w'
                             valid rejected w1 answers /\
        accounted blb blb' (ga4_anatomy.delivered valid answers) rejected
                  (ga4_anatomy.failures valid answers)).
Proof.
  split.
  - intros add self blb w blb' w' Hrun.
    apply ads_send_events_explained in Hrun
      as (valid & rejected & outcomes & Hex & Hpart & _ & _ & Hsent & _).
    exists valid, rejected, outcomes. split; [done|].
    destruct Hex as (Hval & Hlen & Hall & -> & ->). split.
    + by apply (accounted_of_partition _ _ valid.*1).
    + rewrite drop_app_length. apply ads_facts.batch_delivered_length.
  - intros json_loads remote self blb w blb' w' Hrun.
    apply ga4_send_events_explained in Hrun
      as (valid & rejected & w1 & answers & Hex & Hpart & _ & _ & Hsent & _).
    exists valid, rejected, w1, answers. split; [done|].
    destruct Hex as (_ & _ & _ & _ & _ & _ & ->).
    by apply (accounted_of_partition _ _ valid.*1).
Qed.

(** C1 as stated fails: a run need not return.  An amount that is a
    number ends the store-sales call with [AttributeError] before any
    upload, and an upload that raises anything but
    [DataOutConnectorSendUnsuccessfulError] ends it with that exception:
    in both runs the one input index is neither delivered nor reported. *)
Lemma send_events_may_end_without_report :
  ads_ssd_hook.send_events upload_accepts ads_self
    (mkBlob [event_int_amount] 0 []) []
  = (Raise AttributeError, []) /\
  fst (ads_ssd_hook.send_events upload_raises ads_self
         (mkBlob [good_event] 0 []) [])
  = Raise (DataOutConnectorAuthenticationError "invalid_client: Unauthorized").
Proof. split; by vm_compute. Qed.

Lemma send_events_accounts_for_every_index_witness :
  exists blb' w',
    ads_ssd_hook.send_events upload_fails ads_self
      (mkBlob [good_event; event_no_amount; good_event] 5 []) [] = (Ok blb', w') /\
    exists valid rejected outcomes,
      ads_anatomy.explains ads_self
        (mkBlob [good_event; event_no_amount; good_event] 5 []) []
        blb' w' valid rejected outcomes /\
      accounted (mkBlob [good_event; event_no_amount; good_event] 5 []) blb'
                (ads_anatomy.delivered valid outcomes) rejected
                (ads_anatomy.failures valid outcomes) /\
      length (ads_anatomy.delivered valid outcomes)
        = ads_run.delivered_count (drop (length (@nil (ads_ssd_hook.AdsCall * result unit))) w').
Proof.
  eexists _, _. split; [vm_compute; reflexivity|].
  apply (proj1 send_events_accounts_for_every_index upload_fails ads_self).
  vm_compute; reflexivity.
Defined.

(** C2, as the code has it: the report is made of two runs, the indices
    validation refused and then the indices whose sending failed; each
    run is in ascending order of index, every index stands for the event
    at that place of the input, and is reported with the blob's position
    added. *)
Theorem failures_are_reported_in_two_ascending_runs :
  (forall add_store_sales_conversions self blb w blb' w',
      ads_ssd_hook.send_events add_store_sales_conversions self blb w
        = (Ok blb', w') ->
      exists valid rejected outcomes,
        ads_anatomy.explains self blb w blb' w' valid rejected outcomes /\
        StronglySorted lt rejected.*1 /\
        StronglySorted lt (ads_anatomy.failures valid outcomes).*1 /\
        Forall (fun failure => is_Some (events blb !! fst failure))
               (rejected ++ ads_anatomy.failures valid outcomes) /\
        map reported_index
            (drop (length (failed_events blb)) (failed_events blb'))
        = shifted (position blb)
            <$> (rejected ++ ads_anatomy.failures valid outcomes).*1) /\
  (forall json_loads remote self blb w blb' w',
      ga4_hook.send_events json_loads remote self blb w = (Ok blb', w') ->
      exists valid rejected w1 answers,
        ga4_anatomy.explains json_loads remote self blb w blb' w'
                             valid rejected w1 answers /\
        StronglySorted lt rejected.*1 /\
        StronglySorted lt (ga4_anatomy.failures valid answers).*1 /\
        Forall (fun failure => is_Some (events blb !! fst failure))
               (rejected ++ ga4_anatomy.failures valid answers) /\
        map reported_index
            (drop (length (failed_events blb)) (failed_events blb'))
        = shifted (position blb)
            <$> (rejected ++ ga4_anatomy.failures valid answers).*1).
Proof.
  assert (forall (events : list Event) (valid : list nat)
                 (rejected failed : list (nat * ErrorNameIDMap)),
             valid `sublist_of` seq 0 (length events) ->
             rejected.*1 `sublist_of` seq 0 (length events) ->
             failed.*1 `sublist_of` valid ->
             StronglySorted lt rejected.*1 /\ StronglySorted lt failed.*1 /\
             Forall (fun failure => is_Some (events !! fst failure))
                    (rejected ++ failed)) as Hruns.
  { intros events valid rejected failed Hvalid Hrejected Hfailed.
    pose proof (StronglySorted_lt_seq 0 (length events)) as Hseq.
    assert (failed.*1 `sublist_of` seq 0 (length events)) as Hfailed'
      by (by etrans).
    split_and!; [by eapply sublist_StronglySorted..|].
    apply Forall_forall. intros [i error] Hin. simpl.
    apply lookup_lt_is_Some.
    assert (i ∈ seq 0 (length events)) as Hi%elem_of_seq; [|lia].
    apply elem_of_app in Hin as [Hin|Hin];
      [apply (elem_of_sublist rejected.*1)|apply (elem_of_sublist failed.*1)];
      try done; apply list_elem_of_fmap; by exists (i, error). }
  split.
  - intros add self blb w blb' w' Hrun.
    apply ads_send_events_explained in Hrun
      as (valid & rejected & outcomes & Hex & _ & Hv & Hr & _ & Hf).
    exists valid, rejected, outcomes. split; [done|].
    destruct (Hruns (events blb) _ _ _ Hv Hr Hf) as (? & ? & ?).
    split_and!; try done.
    destruct Hex as (_ & _ & _ & _ & ->). simpl.
    by rewrite drop_app_length, reported_index_failure_record.
  - intros json_loads remote self blb w blb' w' Hrun.
    apply ga4_send_events_explained in Hrun
      as (valid & rejected & w1 & answers & Hex & _ & Hv & Hr & _ & Hf).
    exists valid, rejected, w1, answers. split; [done|].
    destruct (Hruns (events blb) _ _ _ Hv Hr Hf) as (? & ? & ?).
    split_and!; try done.
    destruct Hex as (_ & _ & _ & _ & _ & _ & ->). simpl.
    by rewrite drop_app_length, reported_index_failure_record.
Qed.

(** C2 as stated fails: with a valid event at index 0, an event without
    its amount at index 1 and an upload that fails, the report lists
    index 1 before index 0. *)
Lemma report_is_not_ascending :
  exists blb' w',
    ads_ssd_hook.send_events upload_fails ads_self
      (mkBlob [good_event; event_no_amount] 0 []) [] = (Ok blb', w') /\
    reported_indices blb' = [1; 0]%Z /\
    ~ Sorted Z.le (reported_indices blb').
Proof.
  eexists _, _. split; [vm_compute; reflexivity|].
  match goal with
  | |- ?x = _ /\ _ => assert (x = [1; 0]%Z) as -> by (vm_compute; reflexivity)
  end.
  split; [done|].
  intros Hsorted. apply Sorted_inv in Hsorted as [_ Hhd].
  apply HdRel_inv in Hhd. lia.
Qed.

Lemma failures_are_reported_in_two_ascending_runs_witness :
  exists blb' w',
    ads_ssd_hook.send_events upload_fails ads_self
      (mkBlob [good_event; event_no_amount] 0 []) [] = (Ok blb', w') /\
    exists valid rejected outcomes,
      ads_anatomy.explains ads_self (mkBlob [good_event; event_no_amount] 0 []) []
        blb' w' valid rejected outcomes /\
      StronglySorted lt rejected.*1 /\
      StronglySorted lt (ads_anatomy.failures valid outcomes).*1 /\
      Forall (fun failure => is_Some ([good_event; event_no_amount] !! fst failure))
             (rejected ++ ads_anatomy.failures valid outcomes) /\
      map reported_index (drop 0 (failed_events blb'))
      = shifted 0 <$> (rejected ++ ads_anatomy.failures valid outcomes).*1.
Proof.
  eexists _, _. split; [vm_compute; reflexivity|].
  apply (proj1 failures_are_reported_in_two_ascending_runs upload_fails ads_self
           (mkBlob [good_event; event_no_amount] 0 []) []).
  vm_compute; reflexivity.
Defined.

(** ** Uploads that raise *)

Lemma elem_of_batch_failures batches (outcomes : list (result unit))
    k batch msg error_num event :
  batches !! k = Some batch ->
  outcomes !! k = Some (Raise (DataOutConnectorSendUnsuccessfulError msg error_num)) ->
  event ∈ batch ->
  (fst event, error_num) ∈ concat (zip_with ads_run.batch_failures batches outcomes).
Proof.
  intros Hbatch Houtcome Hevent.
  apply list_elem_of_In, in_concat.
  exists (ads_run.batch_failures batch
            (Raise (DataOutConnectorSendUnsuccessfulError msg error_num))).
  split; apply list_elem_of_In.
  - apply list_elem_of_lookup. exists k. apply lookup_zip_with_Some. eauto.
  - simpl. change (map ?f ?l) with (f <$> l).
    apply list_elem_of_fmap. by exists event.
Qed.

(** C6, as the code has it: when the upload of a batch raises
    [DataOutConnectorSendUnsuccessfulError] (the error an authentication
    failure is reported through), a run that returns has reported every
    event of that batch, at least one, with the raised code, and has gone
    on to upload every later batch; when the upload raises anything
    else, [send_events] ends with that exception at once: no later batch
    is uploaded and no blob, hence no failure entry, comes back. *)
Theorem send_error_does_not_stop_the_batches :
  forall add_store_sales_conversions self blb w res w' k call e,
    ads_ssd_hook.send_events add_store_sales_conversions self blb w = (res, w') ->
    drop (length w) w' !! k = Some (call, Raise e) ->
    exists valid rejected batch,
      _validate_and_prepare_events_to_send (events blb) = Ok (valid, rejected) /\
      _batch_generator valid !! k = Some batch /\
      call = ads_run.call_of self batch /\
      batch <> [] /\
      match e with
      | DataOutConnectorSendUnsuccessfulError _ error_num =>
          forall blb', res = Ok blb' ->
            length (drop (length w) w') = length (_batch_generator valid) /\
            Forall (fun event =>
                      failure_record (events blb) (position blb)
                                     (fst event, error_num)
                      ∈ failed_events blb') batch
      | _ => res = Raise e /\ length (drop (length w) w') = S k
      end.
Proof.
  intros add self blb w res w' k call e Hrun Hcall.
  apply ads_returns.send_events_run in Hrun.
  destruct (_validate_and_prepare_events_to_send (events blb))
    as [[valid rejected]|e0] eqn:Hval.
  2: { destruct Hrun as [_ ->]. by rewrite drop_ge in Hcall by lia. }
  destruct Hrun as (outcomes & -> & Hres).
  rewrite drop_app_length in Hcall |- *.
  apply lookup_zip_with_Some in Hcall as (batch & r & [= -> <-] & Hbatch & Hout).
  exists valid, rejected, batch. split_and!; try done.
  { intros ->.
    assert ([] ∈ _batch_generator valid) as Hin by (by eapply list_elem_of_lookup_2).
    apply batch_generator_nonempty in Hin. simpl in Hin. lia. }
  destruct res as [blb'|e'].
  - destruct Hres as (Hlen & Hall & ->).
    assert (ads_run.survivable (Raise e)) as Hsurv.
    { rewrite Forall_forall in Hall. apply Hall. by eapply list_elem_of_lookup_2. }
    destruct e as [| msg error_num | | | | | | |]; try done.
    intros blb' [= <-]. split.
    + by rewrite length_zip_with, Hlen, Nat.min_id.
    + apply Forall_forall. intros event Hevent. cbn [failed_events].
      apply elem_of_app. right. change (map ?f ?l) with (f <$> l).
      apply list_elem_of_fmap. exists (fst event, error_num). split; [done|].
      apply elem_of_app. right. by eapply elem_of_batch_failures.
  - destruct Hres as (before & -> & Hlen & Hall & Hno).
    assert (k < length before \/ k = length before) as [Hk | ->].
    { apply lookup_lt_Some in Hout. rewrite length_app in Hout. simpl in Hout. lia. }
    + rewrite lookup_app_l in Hout by done.
      assert (ads_run.survivable (Raise e)) as Hsurv.
      { rewrite Forall_forall in Hall. apply Hall. by eapply list_elem_of_lookup_2. }
      destruct e; done.
    + rewrite list_lookup_middle in Hout by done. injection Hout as ->.
      assert (length (zip_with (fun batch0 r => (ads_run.call_of self batch0, r))
                        (_batch_generator valid) (before ++ [Raise e]))
              = S (length before)) as Hcount.
      { rewrite length_zip_with, length_app in *. simpl in *. lia. }
      destruct e; done.
Qed.

(** C6 as stated fails: with 1001 valid events the first upload, of 1000
    events, fails with the send error of an authentication failure, and
    the second batch is uploaded all the same; the run returns with the
    1000 events of the first batch reported. *)
Lemma authentication_failure_does_not_halt :
  let run := ads_ssd_hook.send_events upload_fails_once ads_self
               (mkBlob (replicate 1001 good_event) 0 []) [] in
  map (fun cr => (length (call_user_list (fst cr)), snd cr)) (snd run)
  = [(1000, Raise (DataOutConnectorSendUnsuccessfulError
                     "invalid_client: Unauthorized" unauthenticated));
     (1, Ok tt)] /\
  match fst run with
  | Ok blb' => length (failed_events blb') = 1000
  | Raise _ => False
  end.
Proof. vm_compute. split; reflexivity. Qed.

Lemma send_error_does_not_stop_the_batches_witness :
  exists valid rejected batch,
    _validate_and_prepare_events_to_send [good_event; good_event] = Ok (valid, rejected) /\
    _batch_generator valid !! 0 = Some batch /\
    ads_run.call_of ads_self
      [(0, mkTransaction [mkUserIdentifier "HASHED_EMAIL" (PStr sha_a)]
             (PStr "20191030 122301 Asia/Calcutta") (PStr "50000000")
             (PStr "EUR") (PStr "conversionName"));
       (1, mkTransaction [mkUserIdentifier "HASHED_EMAIL" (PStr sha_a)]
             (PStr "20191030 122301 Asia/Calcutta") (PStr "50000000")
             (PStr "EUR") (PStr "conversionName"))]
      = ads_run.call_of ads_self batch /\
    batch <> [] /\
    forall blb',
      fst (ads_ssd_hook.send_events upload_fails ads_self
             (mkBlob [good_event; good_event] 0 []) []) = Ok blb' ->
      length (drop 0 (snd (ads_ssd_hook.send_events upload_fails ads_self
                             (mkBlob [good_event; good_event] 0 []) [])))
        = length (_batch_generator valid) /\
      Forall (fun event =>
                failure_record [good_event; good_event] 0 (fst event, unauthenticated)
                ∈ failed_events blb') batch.
Proof.
  apply (send_error_does_not_stop_the_batches upload_fails ads_self
           (mkBlob [good_event; good_event] 0 []) []
           (fst (ads_ssd_hook.send_events upload_fails ads_self
                   (mkBlob [good_event; good_event] 0 []) []))
           (snd (ads_ssd_hook.send_events upload_fails ads_self
                   (mkBlob [good_event; good_event] 0 []) []))
           0 _ (DataOutConnectorSendUnsuccessfulError
                  "invalid_client: Unauthorized" unauthenticated)).
  - by destruct (ads_ssd_hook.send_events _ _ _ _).
  - vm_compute. reflexivity.
Defined.

(** ** One attempt per batch *)



Lemma calls_of_batches self batches (outcomes : list (result unit)) :
  length outcomes = length batches ->
  (zip_with (fun batch r => (ads_run.call_of self batch, r)) batches outcomes).*1
  = ads_run.call_of self <$> batches.
Proof.
  revert outcomes. induction batches as [|batch batches IH];
    intros [|r outcomes]; simpl; try done.
  intros [= Hlen]. by rewrite IH.
Qed.





(** ** The verdict of remote validation *)

Lemma selects_spec (message : ga4_hook.ValidationMessage) property_name :
  (match ga4_hook.fieldPath message with
   | Some f => String.eqb f property_name
   | None => false
   end || str_contains property_name (ga4_hook.description message))%bool = true
  <-> ga4_run.selects message property_name.
Proof.
  unfold ga4_run.selects. rewrite orb_true_iff, str_contains_spec.
  destruct (ga4_hook.fieldPath message) as [f|].
  - rewrite String.eqb_eq. split; (intros [H|H]; [left|by right]); congruence.
  - split; (intros [H|H]; [done|by right]).
Qed.

Lemma find_error_type_spec types (message : ga4_hook.ValidationMessage) :
  match ga4_hook.find_error_type types (ga4_hook.fieldPath message)
                                 (ga4_hook.description message) with
  | Some error =>
      exists k property_name,
        types !! k = Some (property_name, error) /\
        ga4_run.selects message property_name /\
        forall j name' error',
          j < k -> types !! j = Some (name', error') ->
          ~ ga4_run.selects message name'
  | None =>
      forall name' error', (name', error') ∈ types ->
                           ~ ga4_run.selects message name'
  end.
Proof.
  induction types as [|[property_name error] types IH].
  - simpl. intros ? ? Hin. by apply elem_of_nil in Hin.
  - cbn [ga4_hook.find_error_type].
    pose proof (selects_spec message property_name) as Hsel.
    destruct (_ || _)%bool.
    + exists 0, property_name. split; [done|]. split; [by apply Hsel|].
      intros j ? ? Hj. lia.
    + assert (~ ga4_run.selects message property_name) as Hno.
      { intros Hs. apply Hsel in Hs. done. }
      destruct (ga4_hook.find_error_type types _ _) as [error0|].
      * destruct IH as (k & name & Hk & Hs & Hbefore).
        exists (S k), name. split; [done|]. split; [done|].
        intros [|j] name' error' Hj Hlookup.
        -- by injection Hlookup as <- <-.
        -- apply (Hbefore j name' error'); [lia|done].
      * intros name' error' [[= -> ->]|Hin]%elem_of_cons; [done|].
        by eapply IH.
Qed.

(** C5, as the code has it: for an event with an id and a payload that
    parses to a JSON object, validation posts the payload once to the
    validation URL.  A connection error, or an answer whose status is
    not 200, gives the retriable HTTP code; an answer 200 without
    message accepts the event; an answer 200 with messages gives the code
    of the first entry of the table that the first message selects, by
    its field path being the entry's name or its description containing
    the name; when it selects none, the code is the generic one and one
    error line is logged with the row id, the field path and the
    description. *)
Theorem remote_validation_verdict :
  forall json_loads remote self (event : Event) row_id text members w,
    event !! "id" = Some row_id ->
    event !! "payload" = Some (PStr text) ->
    json_loads text = Some (JObject members) ->
    let request :=
      ga4_hook.post_json (ga4_hook.validate_url self)
        (JObject (dict_set members "validationBehavior"
                           (JString "ENFORCE_RECOMMENDATIONS"))) in
    let answer := remote (ga4_hook.http w) request in
    exists verdict lines,
      ga4_hook.validate_event json_loads remote self event w
      = (Ok verdict,
         ga4_hook.mkWorld (ga4_hook.http w ++ [(request, answer)])
                          (ga4_hook.logs w ++ lines)) /\
      match answer with
      | ga4_hook.ConnectionError =>
          verdict = ga4_hook.Invalid RETRIABLE_GA4_HOOK_ERROR_HTTP_ERROR /\
          lines = []
      | ga4_hook.HttpResponse status_code messages =>
          if decide (status_code = 200%Z) then
            match messages with
            | [] => verdict = ga4_hook.Valid /\ lines = []
            | message :: _ =>
                (exists k property_name error,
                    ga4_hook._ERROR_TYPES !! k = Some (property_name, error) /\
                    ga4_run.selects message property_name /\
                    (forall j name' error',
                        j < k ->
                        ga4_hook._ERROR_TYPES !! j = Some (name', error') ->
                        ~ ga4_run.selects message name') /\
                    verdict = ga4_hook.Invalid error /\ lines = []) \/
                ((forall name' error',
                     (name', error') ∈ ga4_hook._ERROR_TYPES ->
                     ~ ga4_run.selects message name') /\
                 verdict = ga4_hook.Invalid GA4_HOOK_ERROR_INVALID_VALUES /\
                 lines = [ga4_hook.log_error row_id (ga4_hook.fieldPath message)
                                             (ga4_hook.description message)])
            end
          else
            verdict = ga4_hook.Invalid RETRIABLE_GA4_HOOK_ERROR_HTTP_ERROR /\
            lines = []
      end.
Proof.
  intros json_loads remote self event row_id text members w Hid Hpayload Hloads
         request answer.
  unfold ga4_hook.validate_event, bind at 1, lift at 1, ga4_hook.load_event.
  rewrite Hid, Hpayload, Hloads.
  unfold bind at 1, lift at 1. cbn [json_setitem].
  unfold bind at 1, ga4_hook.requests_post.
  fold request. fold answer.
  destruct answer as [|status_code messages].
  - exists (ga4_hook.Invalid RETRIABLE_GA4_HOOK_ERROR_HTTP_ERROR), [].
    by rewrite app_nil_r.
  - destruct (decide (status_code = 200%Z)) as [->|Hne].
    + cbn [Z.eqb Pos.eqb negb].
      destruct messages as [|message messages].
      * exists ga4_hook.Valid, []. by rewrite app_nil_r.
      * pose proof (find_error_type_spec ga4_hook._ERROR_TYPES message) as Hfind.
        destruct (ga4_hook.find_error_type _ _ _) as [error|].
        -- exists (ga4_hook.Invalid error), []. rewrite app_nil_r.
           split; [done|]. left.
           destruct Hfind as (k & name & Hk & Hs & Hbefore).
           exists k, name, error. done.
        -- eexists _, [_]. split; [reflexivity|]. right. done.
    + apply Z.eqb_neq in Hne. rewrite Hne. cbn [negb].
      exists (ga4_hook.Invalid RETRIABLE_GA4_HOOK_ERROR_HTTP_ERROR), [].
      by rewrite app_nil_r.
Qed.

(** C5 as stated fails: an answer with status 204, a 2xx status, and no
    validation message does not accept the event; it is refused with the
    retriable HTTP code. *)
Lemma no_content_answer_is_not_accepted :
  fst (ga4_hook._validate_events_to_send json_loads_sample remote_no_content
         ga4_self [ga4_event] ga4_start)
  = Ok ([], [(0, RETRIABLE_GA4_HOOK_ERROR_HTTP_ERROR)]).
Proof. vm_compute. reflexivity. Qed.

(** ** The theorems at work on the sample inputs *)

Lemma remote_validation_verdict_witness :
  exists verdict lines,
    ga4_hook.validate_event json_loads_sample (remote_complains sample_message)
      ga4_self ga4_event ga4_start
    = (Ok verdict,
       ga4_hook.mkWorld
         (ga4_hook.http ga4_start
          ++ [(ga4_hook.post_json (ga4_hook.validate_url ga4_self)
                 (JObject (dict_set [] "validationBehavior"
                                    (JString "ENFORCE_RECOMMENDATIONS"))),
               ga4_hook.HttpResponse 200 [sample_message])])
         (ga4_hook.logs ga4_start ++ lines)).
Proof.
  destruct (remote_validation_verdict json_loads_sample
              (remote_complains sample_message) ga4_self ga4_event
              (PInt 1) "{}" [] ga4_start)
    as (verdict & lines & Hrun & _); [vm_compute; reflexivity..|].
  by exists verdict, lines.
Defined.

Lemma missing_mandatory_field_never_dispatched_witness :
  _format_event event_no_amount =
  Raise (DataOutConnectorValueError
           "Event is missing at least one mandatory field ['transactionTime', 'microAmount', 'currencyCode', 'conversionName']"
           ADS_SSD_HOOK_ERROR_MISSING_MANDATORY_FIELDS).
Proof.
  apply (proj1 missing_mandatory_field_never_dispatched).
  exists "microAmount". split; [|vm_compute; reflexivity].
  unfold store_sales_transaction_fields.
  apply list_elem_of_further, list_elem_of_here.
Defined.

Lemma format_event_user_identifiers_witness :
  userIdentifiers good_transaction =
    omap (fun row => mkUserIdentifier (snd row) <$> good_event !! fst row)
         identifier_types.
Proof.
  apply (format_event_user_identifiers good_event good_transaction).
  vm_compute. reflexivity.
Defined.

(** * Further properties of the two hooks *)

(** ** The two patterns *)

Lemma all_chars_app p (s1 s2 : string) :
  all_chars p (s1 ++ s2)%string = (all_chars p s1 && all_chars p s2)%bool.
Proof.
  induction s1 as [|c s1 IH]; [done|].
  change (all_chars p (String c (s1 ++ s2))
          = (p c && all_chars p s1 && all_chars p s2)%bool).
  simpl. by rewrite IH, andb_assoc.
Qed.



Lemma consume_spec p n (s rest : string) :
  consume p n s = Some rest <->
  exists head, s = (head ++ rest)%string /\
               String.length head = n /\ all_chars p head = true.
Proof.
  revert s. induction n as [|n IH]; intros s; simpl.
  - split.
    + intros [= ->]. by exists "".
    + intros ([|c head] & -> & Hlen & _); [done|]. simpl in Hlen. lia.
  - destruct s as [|c s].
    + split; [done|]. intros ([|c head] & Heq & Hlen & _); simpl in *; [lia|done].
    + destruct (p c) eqn:Hpc.
      * rewrite IH. split.
        -- intros (head & -> & Hlen & Hall). exists (String c head). simpl.
           rewrite Hpc, Hall, Hlen. done.
        -- intros ([|c' head] & Heq & Hlen & Hall); simpl in *; [lia|].
           injection Heq as <- ->. apply andb_true_iff in Hall as [_ Hall].
           exists head. split_and!; [done|lia|done].
      * split; [done|].
        intros ([|c' head] & Heq & Hlen & Hall); simpl in *; [lia|].
        injection Heq as <- ->. rewrite Hpc in Hall. done.
Qed.

Lemma is_space_spec c : is_space c = true <-> c = " "%char.
Proof.
  unfold is_space, code. rewrite N.eqb_eq. split.
  - intros Hc. rewrite <- (ascii_N_embedding c), Hc. reflexivity.
  - intros ->. reflexivity.
Qed.

Lemma consume_space (s rest : string) :
  consume is_space 1 s = Some rest <-> s = String " " rest.
Proof.
  simpl. destruct s as [|c s]; [done|].
  pose proof (is_space_spec c) as Hc. destruct (is_space c).
  - assert (c = " "%char) as -> by (by apply Hc). split; congruence.
  - split; [done|]. intros [= -> ->]. destruct Hc as [_ Hc]. by specialize (Hc eq_refl).
Qed.


(** X2: the conversion-time test succeeds exactly on the strings that
    start with eight decimal digits, a space, six decimal digits, a space
    and one character of the zone class (word character, slash or
    hyphen); what follows that character is not looked at. *)
Theorem date_time_pattern_tests_a_prefix :
  forall s : string,
    match_RE_STRING_DATE_TIME s = true <->
    exists date time c rest,
      s = (date ++ String " " (time ++ String " " (String c rest)))%string /\
      String.length date = 8 /\ all_chars is_decimal date = true /\
      String.length time = 6 /\ all_chars is_decimal time = true /\
      is_zone_char c = true.
Proof.
  intros s. unfold match_RE_STRING_DATE_TIME. split.
  - destruct (consume is_decimal 8 s) as [s1|] eqn:H1; [|done].
    destruct (consume is_space 1 s1) as [s2|] eqn:H2; [|done].
    destruct (consume is_decimal 6 s2) as [s3|] eqn:H3; [|done].
    destruct (consume is_space 1 s3) as [[|c rest]|] eqn:H4; try done.
    intros Hzone.
    apply consume_spec in H1 as (date & -> & Hd1 & Hd2).
    apply consume_space in H2 as ->.
    apply consume_spec in H3 as (time & -> & Ht1 & Ht2).
    apply consume_space in H4 as ->.
    by exists date, time, c, rest.
  - intros (date & time & c & rest & -> & Hd1 & Hd2 & Ht1 & Ht2 & Hzone).
    assert (consume is_decimal 8
              (date ++ String " " (time ++ String " " (String c rest)))
            = Some (String " " (time ++ String " " (String c rest)))) as ->.
    { apply consume_spec. by exists date. }
    assert (consume is_space 1 (String " " (time ++ String " " (String c rest)))
            = Some (time ++ String " " (String c rest))%string) as ->.
    { by apply consume_space. }
    assert (consume is_decimal 6 (time ++ String " " (String c rest))
            = Some (String " " (String c rest))) as ->.
    { apply consume_spec. by exists time. }
    assert (consume is_space 1 (String " " (String c rest)) = Some (String c rest))
      as ->.
    { by apply consume_space. }
    done.
Qed.

(** ** What [_format_event] accepts and what it refuses *)

Lemma has_mandatory_fields_forallb event :
  forallb (has_key event) store_sales_transaction_fields = true <->
  has_mandatory_fields event.
Proof.
  unfold has_mandatory_fields. rewrite forallb_forall, Forall_forall.
  split; intros Hall field Hin.
  - apply list_elem_of_In, Hall in Hin. unfold has_key in Hin.
    destruct (event !! field); [by eauto|done].
  - apply list_elem_of_In, Hall in Hin as [v Hv]. unfold has_key. by rewrite Hv.
Qed.

Lemma mandatory_lookups event :
  has_mandatory_fields event ->
  exists time amount currency name,
    event !! "transactionTime" = Some time /\
    event !! "microAmount" = Some amount /\
    event !! "currencyCode" = Some currency /\
    event !! "conversionName" = Some name.
Proof.
  unfold has_mandatory_fields, store_sales_transaction_fields.
  intros Hall. repeat (apply Forall_cons in Hall as [[? ?] Hall]). eauto 10.
Qed.

(** The steps of [_format_event] that follow the identifier loop. *)
Lemma format_event_after_identifiers event id ids time amount currency name :
  has_mandatory_fields event ->
  collect_user_identifiers event identifier_types [] = Ok (id :: ids) ->
  event !! "transactionTime" = Some time ->
  event !! "microAmount" = Some amount ->
  event !! "currencyCode" = Some currency ->
  event !! "conversionName" = Some name ->
  _format_event event =
  (do time_ok <- re_match_date_time time;
   if negb time_ok then
     Raise (DataOutConnectorValueError
              "transactionTime should be formatted: yyyymmdd hhmmss [tz]"
              ADS_SSD_HOOK_ERROR_INVALID_FORMAT_OF_CONVERSION_TIME)
   else
     do amount_ok <- py_isdigit amount;
     if negb amount_ok then
       Raise (DataOutConnectorValueError
                "microAmount must be a positive integer."
                ADS_SSD_HOOK_ERROR_INVALID_CONVERSION_VALUE)
     else if negb (truthy currency) then
       Raise (DataOutConnectorValueError
                "Currency code must not be empty."
                ADS_SSD_HOOK_ERROR_INVALID_CURRENCY)
     else
       do too_long <-
         (if negb (truthy name) then Ok true
          else do n <- py_len name; Ok (100 <? n));
       if too_long then
         Raise (DataOutConnectorValueError
                  "Length of conversionName should be <= 100."
                  ADS_SSD_HOOK_ERROR_INVALID_LENGTH_OF_CONVERSION_NAME)
       else Ok (mkTransaction (id :: ids) time amount currency name))%result.
Proof.
  intros Hfields Hids Htime Hamount Hcurrency Hname.
  apply has_mandatory_fields_forallb in Hfields.
  unfold _format_event, getitem.
  rewrite Hfields, Hids, Htime, Hamount, Hcurrency, Hname. reflexivity.
Qed.

(** X3: an event is accepted exactly when it has the four mandatory
    fields, every hashed identifier it has passes the SHA256 test, it has
    at least one identifier, its conversion time is a string that passes
    the time test, its amount is a string [isdigit] accepts, its currency
    code is truthy, and its conversion name is truthy with a length of at
    most 100; the transaction then carries the four values as they are. *)
Theorem format_event_accepts_exactly :
  forall (event : Event) (t : StoreSalesTransaction),
    _format_event event = Ok t <->
    exists time amount n,
      event !! "transactionTime" = Some (PStr time) /\
      match_RE_STRING_DATE_TIME time = true /\
      event !! "microAmount" = Some (PStr amount) /\
      str_isdigit amount = true /\
      event !! "currencyCode" = Some (currencyCode t) /\
      truthy (currencyCode t) = true /\
      event !! "conversionName" = Some (conversionName t) /\
      truthy (conversionName t) = true /\
      py_len (conversionName t) = Ok n /\ n <= 100 /\
      Forall (ads_run.identifier_checked event) identifier_types /\
      userIdentifiers t = omap (ads_run.identifier_entry event) identifier_types /\
      userIdentifiers t <> [] /\
      transactionTime t = PStr time /\ microAmount t = PStr amount.
Proof.
  intros event t. split.
  - unfold _format_event.
    destruct (forallb _ _); cbn [negb]; [|done].
    destruct (collect_user_identifiers _ _ _) as [[|id ids]|e] eqn:Hids;
      cbn [rbind]; try done.
    apply format_facts.collect_user_identifiers_ok in Hids as [Hchecked Hids].
    rewrite app_nil_l in Hids. unfold getitem.
    destruct (event !! "transactionTime") as [[| | |time|]|];
      cbn [rbind re_match_date_time]; try done.
    destruct (match_RE_STRING_DATE_TIME time) eqn:Htime; cbn [negb]; [|done].
    destruct (event !! "microAmount") as [[| | |amount|]|];
      cbn [rbind py_isdigit]; try done.
    destruct (str_isdigit amount) eqn:Hamount; cbn [negb]; [|done].
    destruct (event !! "currencyCode") as [currency|]; cbn [rbind]; [|done].
    destruct (truthy currency) eqn:Hcurrency; cbn [negb]; [|done].
    destruct (event !! "conversionName") as [name|]; cbn [rbind]; [|done].
    destruct (truthy name) eqn:Hname; cbn [negb rbind]; [|done].
    destruct (py_len name) as [n|] eqn:Hlen; cbn [rbind]; [|done].
    destruct (Nat.ltb_spec 100 n); [done|].
    intros [= <-].
    cbn [userIdentifiers transactionTime microAmount currencyCode conversionName].
    exists time, amount, n. split_and!; try done.
  - intros (time & amount & n & Htime & Hmatch & Hamount & Hdigit & Hcur & Htcur
            & Hname & Htname & Hlen & Hn & Hchecked & Hids & Hne & Ht1 & Ht2).
    assert (collect_user_identifiers event identifier_types []
            = Ok (userIdentifiers t)) as Hcollect.
    { apply format_facts.collect_user_identifiers_ok. by rewrite app_nil_l. }
    destruct (userIdentifiers t) as [|id ids] eqn:Hu; [done|].
    rewrite (format_event_after_identifiers event id ids (PStr time) (PStr amount)
               (currencyCode t) (conversionName t)); try done.
    + cbn [re_match_date_time rbind py_isdigit].
      rewrite Hmatch, Hdigit, Htcur, Htname, Hlen. cbn [negb rbind].
      destruct (Nat.ltb_spec 100 n); [lia|].
      destruct t. simpl in *. congruence.
    + unfold has_mandatory_fields, store_sales_transaction_fields.
      repeat constructor; by eauto.
Qed.

Lemma collect_on_strings event types acc :
  (forall field type v, (field, type) ∈ types -> event !! field = Some v ->
                        str_in type hashed_types = true ->
                        v = PNone \/ exists s, v = PStr s) ->
  (exists ids, collect_user_identifiers event types acc = Ok ids) \/
  collect_user_identifiers event types acc =
    Raise (DataOutConnectorValueError msg_sha256
             ADS_SSD_HOOK_ERROR_PAYLOAD_FIELD_VIOLATES_SHA256_FORMAT).
Proof.
  revert acc. induction types as [|[field type] types IH]; intros acc Hstr.
  - left. by eexists.
  - cbn [collect_user_identifiers].
    assert (forall field' type' v,
               (field', type') ∈ types -> event !! field' = Some v ->
               str_in type' hashed_types = true ->
               v = PNone \/ exists s, v = PStr s) as Hrest.
    { intros ? ? ? Hin. apply Hstr. by apply list_elem_of_further. }
    destruct (event !! field) as [v|] eqn:Hv; [|by apply IH].
    destruct (str_in type hashed_types) eqn:Hhashed; cbn [rbind]; [|by apply IH].
    destruct (Hstr field type v (list_elem_of_here _ _) Hv Hhashed)
      as [->|[s ->]]; cbn [_validate_sha256_pattern rbind]; [by right|].
    destruct (match_SHA256_DIGEST_PATTERN s); cbn [rbind]; [by apply IH|by right].
Qed.

Lemma format_event_on_strings (event : Event) :
  string_valued event ->
  (exists t, _format_event event = Ok t) \/
  (exists msg error_num,
      _format_event event = Raise (DataOutConnectorValueError msg error_num)).
Proof.
  intros Hstr.
  destruct (forallb (has_key event) store_sales_transaction_fields) eqn:Hfields.
  2: { right. unfold _format_event. rewrite Hfields. by eauto. }
  pose proof Hfields as Hlook.
  apply has_mandatory_fields_forallb in Hfields.
  destruct (mandatory_lookups _ Hfields)
    as (time & amount & currency & name & Htime & Hamount & Hcur & Hname).
  destruct (Hstr _ _ Htime) as [time' ->].
  destruct (Hstr _ _ Hamount) as [amount' ->].
  destruct (Hstr _ _ Hname) as [name' ->].
  destruct (collect_on_strings event identifier_types []) as [[ids Hids]|Hids].
  { intros field type v _ Hv _. right. by eapply Hstr. }
  2: { right. unfold _format_event. rewrite Hlook, Hids. by eauto. }
  destruct ids as [|id ids].
  { right. unfold _format_event. rewrite Hlook, Hids. cbn [negb rbind]. by eauto. }
  rewrite (format_event_after_identifiers _ _ _ _ _ _ _ Hfields Hids
             Htime Hamount Hcur Hname).
  cbn [re_match_date_time py_isdigit py_len rbind].
  destruct (match_RE_STRING_DATE_TIME time'); cbn [negb]; [|by eauto].
  destruct (str_isdigit amount'); cbn [negb]; [|by eauto].
  destruct (truthy currency); cbn [negb]; [|by eauto].
  destruct (truthy (PStr name')); cbn [negb rbind]; [|by eauto].
  destruct (100 <? String.length name'); by eauto.
Qed.

(** X4: on an event whose fields all hold strings, [_format_event]
    either returns a transaction or raises [DataOutConnectorValueError]:
    no other exception can leave it. *)
Theorem format_event_on_strings_accepts_or_refuses :
  forall event : Event,
    string_valued event ->
    (exists t, _format_event event = Ok t) \/
    (exists msg error_num,
        _format_event event = Raise (DataOutConnectorValueError msg error_num)).
Proof. exact format_event_on_strings. Qed.

Lemma omap_all_none {A B} (f : A -> option B) (l : list A) :
  (forall x, x ∈ l -> f x = None) -> omap f l = [].
Proof.
  induction l as [|x l IH]; intros Hnone; [done|]. simpl.
  rewrite (Hnone x) by apply list_elem_of_here.
  apply IH. intros y Hy. apply Hnone. by apply list_elem_of_further.
Qed.

(** X5: of an event that has the four mandatory fields, the identifier
    stage decides first.  With no identifier field at all the event is
    refused with the missing-identifier code; with a hashed identifier
    that is [None] or fails the SHA256 test it is refused with the
    SHA256-format code, whatever the other fields hold (the values under
    hashed fields being strings or [None]). *)
Theorem format_event_identifier_errors :
  forall event : Event,
    has_mandatory_fields event ->
    ((forall field type, (field, type) ∈ identifier_types ->
                         event !! field = None) ->
     _format_event event =
     Raise (DataOutConnectorValueError
              "Event is missing at least one user identifier field ['email', 'email2', 'email3', 'firstName', 'lastName', 'city', 'state', 'zip', 'country', 'phoneNumber', 'phoneNumber2', 'phoneNumber3']"
              ADS_SSD_HOOK_ERROR_MISSING_IDENTIFIER_FIELD)) /\
    (hashed_values_are_text event ->
     (exists field type v,
         (field, type) ∈ identifier_types /\
         str_in type hashed_types = true /\
         event !! field = Some v /\
         _validate_sha256_pattern v <> Ok tt) ->
     _format_event event =
     Raise (DataOutConnectorValueError
              "None or string is not in SHA256 format."
              ADS_SSD_HOOK_ERROR_PAYLOAD_FIELD_VIOLATES_SHA256_FORMAT)).
Proof.
  intros event Hfields. apply has_mandatory_fields_forallb in Hfields. split.
  - intros Hnone.
    assert (collect_user_identifiers event identifier_types [] = Ok []) as Hids.
    { apply format_facts.collect_user_identifiers_ok. split.
      - apply Forall_forall. intros [field type] Hin v Hv. simpl in Hv.
        by rewrite (Hnone field type Hin) in Hv.
      - rewrite app_nil_l. symmetry. apply omap_all_none.
        intros [field type] Hin. unfold ads_run.identifier_entry. simpl.
        by rewrite (Hnone field type Hin). }
    unfold _format_event. rewrite Hfields, Hids. reflexivity.
  - intros Htext (field & type & v & Hin & Hhashed & Hv & Hbad).
    destruct (collect_on_strings event identifier_types [] Htext)
      as [[ids Hids]|Hids].
    + apply format_facts.collect_user_identifiers_ok in Hids as [Hchecked _].
      rewrite Forall_forall in Hchecked.
      destruct Hbad. by apply (Hchecked (field, type) Hin).
    + unfold _format_event. rewrite Hfields, Hids. reflexivity.
Qed.


(** ** Validation, batches and uploads of the store-sales hook *)

(** X7: when [_validate_and_prepare_events_to_send] returns, every pair
    of its first list is the index of an input event with the transaction
    [_format_event] makes of that event, every pair of its second list is
    the index of an input event with the error code [_format_event]
    raises on it, both lists are in ascending order of index, and
    together they hold as many pairs as there are input events. *)
Theorem validation_keeps_indices :
  forall (events : list Event) valid invalid,
    _validate_and_prepare_events_to_send events = Ok (valid, invalid) ->
    (forall i t, (i, t) ∈ valid <->
                 exists event, events !! i = Some event /\
                               _format_event event = Ok t) /\
    (forall i error_num,
        (i, error_num) ∈ invalid <->
        exists event msg,
          events !! i = Some event /\
          _format_event event = Raise (DataOutConnectorValueError msg error_num)) /\
    StronglySorted lt valid.*1 /\ StronglySorted lt invalid.*1 /\
    length valid + length invalid = length events.
Proof.
  intros events valid invalid Hval.
  apply ads_facts.validate_and_prepare_returns in Hval as (Hesc & -> & ->).
  split_and!.
  - intros i t. rewrite list_elem_of_omap. split.
    + intros ([j event] & Hin%enumerate_lookup & Hacc).
      unfold ads_run.accepted in Hacc. simpl in Hacc.
      destruct (_format_event event) eqn:Hfmt; [|done].
      injection Hacc as -> ->. by exists event.
    + intros (event & Hi & Hfmt). exists (i, event).
      split; [by apply enumerate_lookup|].
      unfold ads_run.accepted. simpl. by rewrite Hfmt.
  - intros i error_num. rewrite list_elem_of_omap. split.
    + intros ([j event] & Hin%enumerate_lookup & Hrej).
      unfold ads_run.rejected in Hrej. simpl in Hrej.
      destruct (_format_event event) as [|[]] eqn:Hfmt; try done.
      injection Hrej as -> ->. by eauto.
    + intros (event & msg & Hi & Hfmt). exists (i, event).
      split; [by apply enumerate_lookup|].
      unfold ads_run.rejected. simpl. by rewrite Hfmt.
  - eapply sublist_StronglySorted; [apply ads_facts.accepted_sublist|].
    apply StronglySorted_lt_seq.
  - eapply sublist_StronglySorted; [apply ads_facts.rejected_sublist|].
    apply StronglySorted_lt_seq.
  - pose proof (ads_facts.validation_partition events Hesc) as Hperm.
    apply Permutation_length in Hperm.
    by rewrite length_app, !length_fmap, length_seq in Hperm.
Qed.

Lemma range_from_length fuel start stop step :
  0 < step -> stop - start <= fuel ->
  length (range_from fuel start stop step) = (stop - start + step - 1) / step.
Proof.
  intros Hstep. revert start.
  induction fuel as [|fuel IH]; intros start Hfuel; simpl.
  - replace (stop - start + step - 1) with (step - 1) by lia.
    symmetry. apply Nat.div_small. lia.
  - destruct (Nat.ltb_spec start stop) as [Hlt|Hge]; simpl.
    + rewrite IH by lia.
      destruct (Nat.le_gt_cases step (stop - start)) as [Hle|Hgt].
      * replace (stop - start + step - 1)
          with ((stop - (start + step) + step - 1) + 1 * step) by lia.
        rewrite Nat.div_add by lia. lia.
      * replace (stop - (start + step) + step - 1) with (step - 1) by lia.
        rewrite (Nat.div_small (step - 1)) by lia.
        replace (stop - start + step - 1)
          with ((stop - start - 1) + 1 * step) by lia.
        rewrite Nat.div_add by lia.
        rewrite (Nat.div_small (stop - start - 1)) by lia. done.
    + replace (stop - start + step - 1) with (step - 1) by lia.
      symmetry. apply Nat.div_small. lia.
Qed.

(** X8: a list of [n] events is cut into [ceil(n / 1000)] batches; the
    empty list gives no batch at all. *)
Theorem batch_generator_count :
  forall (events : list (nat * StoreSalesTransaction)),
    length (_batch_generator events) = (length events + 999) / 1000 /\
    (_batch_generator events = [] <-> events = []).
Proof.
  intros events.
  assert (length (_batch_generator events) = (length events + 999) / 1000) as Hlen.
  { unfold _batch_generator, py_range.
    change (map ?f ?l) with (f <$> l). rewrite length_fmap.
    rewrite range_from_length by (unfold _DEFAULT_BATCH_SIZE; lia).
    unfold _DEFAULT_BATCH_SIZE. f_equal. lia. }
  split; [done|]. split.
  - intros Hnil. pose proof (batch_generator_concat events) as Hcat.
    rewrite Hnil in Hcat. done.
  - intros ->. reflexivity.
Qed.

Lemma send_batches_all_accepted self batches invalid w
    (add_store_sales_conversions : AdsWorld -> AdsCall -> result unit) :
  (forall w c, add_store_sales_conversions w c = Ok tt) ->
  send_batches add_store_sales_conversions self batches invalid w
  = (Ok invalid,
     w ++ ((fun batch => (ads_run.call_of self batch, Ok tt)) <$> batches)).
Proof.
  intros Hok. revert w. induction batches as [|batch batches IH]; intros w.
  - simpl. unfold ret. by rewrite app_nil_r.
  - cbn [send_batches]. unfold bind at 1, try_except, bind,
      call_add_store_sales_conversions, ret.
    rewrite Hok. rewrite IH, <- app_assoc. reflexivity.
Qed.

Lemma send_batches_survives self batches invalid w
    (add_store_sales_conversions : AdsWorld -> AdsCall -> result unit) :
  (forall w c, ads_run.survivable (add_store_sales_conversions w c)) ->
  exists invalid' w',
    send_batches add_store_sales_conversions self batches invalid w
    = (Ok invalid', w').
Proof.
  intros Hsurv. revert invalid w.
  induction batches as [|batch batches IH]; intros invalid w.
  - simpl. unfold ret. by eauto.
  - cbn [send_batches]. unfold bind at 1, try_except, bind,
      call_add_store_sales_conversions, ret.
    pose proof (Hsurv w (mkAdsCall (external_upload_id self)
                                   (map snd batch) (upload_type self))) as Hs.
    destruct (add_store_sales_conversions w _) as [[]|[]]; try done; apply IH.
Qed.

Lemma failures_in_range (events : list Event) (outcomes : list (result unit)) :
  Forall (fun failure => fst failure < length events)
         (omap ads_run.rejected (enumerate events)
          ++ concat (zip_with ads_run.batch_failures
                       (_batch_generator (omap ads_run.accepted (enumerate events)))
                       outcomes)).
Proof.
  apply Forall_forall. intros [i error] Hin. simpl.
  assert (i ∈ seq 0 (length events)) as Hseq%elem_of_seq; [|lia].
  apply elem_of_app in Hin as [Hin|Hin].
  - eapply elem_of_sublist; [|apply ads_facts.rejected_sublist].
    apply list_elem_of_fmap. by exists (i, error).
  - eapply elem_of_sublist; [|apply ads_facts.accepted_sublist].
    rewrite <- (batch_generator_concat (omap _ _)) at 1.
    eapply elem_of_sublist; [|apply ads_facts.batch_failures_sublist].
    apply list_elem_of_fmap. by exists (i, error).
Qed.

(** X9: in a run of the store-sales hook that returns, the transactions
    of the uploads, taken call after call, are exactly the transactions
    of the accepted events in input order, each once; every call carries
    between 1 and 1000 of them, under the hook's upload id and upload
    type. *)
Theorem uploads_carry_the_accepted_transactions :
  forall add_store_sales_conversions self blb w blb' w',
    ads_ssd_hook.send_events add_store_sales_conversions self blb w
      = (Ok blb', w') ->
    exists valid rejected,
      _validate_and_prepare_events_to_send (events blb) = Ok (valid, rejected) /\
      concat (call_user_list <$> (drop (length w) w').*1) = valid.*2 /\
      Forall (fun call =>
                0 < length (call_user_list call) <= 1000 /\
                call_external_upload_id call = external_upload_id self /\
                call_upload_type call = upload_type self)
             (drop (length w) w').*1.
Proof.
  intros add self blb w blb' w' Hrun.
  apply ads_send_events_explained in Hrun
    as (valid & rejected & outcomes & Hex & _).
  destruct Hex as (Hval & Hlen & _ & -> & _).
  exists valid, rejected. split; [done|].
  rewrite drop_app_length, (calls_of_batches _ _ _ Hlen).
  rewrite <- list_fmap_compose. split.
  - rewrite <- (batch_generator_concat valid) at 2.
    change (?l.*2) with (map snd l). rewrite concat_map. reflexivity.
  - apply Forall_forall. intros call (batch & -> & Hin)%list_elem_of_fmap.
    simpl. rewrite length_map. split; [|done].
    by apply (batch_generator_nonempty valid).
Qed.


Lemma all_accepted (events : list Event) start :
  Forall (fun event => is_ok (_format_event event) = true) events ->
  omap ads_run.rejected (zip (seq start (length events)) events) = [].
Proof.
  intros Hall. revert start.
  induction Hall as [|event events Hevent Hall IH]; intros start; [done|].
  cbn [length seq]. rewrite omap_zip_cons.
  unfold ads_run.rejected at 1. cbn [fst snd].
  destruct (_format_event event); [|done]. apply IH.
Qed.

(** X11: when [_format_event] accepts every event and every upload
    returns, [send_events] of the store-sales hook gives the blob back
    unchanged, with no failed event added, after one upload per batch of
    the accepted transactions. *)
Theorem send_events_without_failure :
  forall add_store_sales_conversions self blb w,
    Forall (fun event => is_ok (_format_event event) = true) (events blb) ->
    (forall w c, add_store_sales_conversions w c = Ok tt) ->
    ads_ssd_hook.send_events add_store_sales_conversions self blb w
    = (Ok blb,
       w ++ ((fun batch => (ads_run.call_of self batch, Ok tt))
               <$> _batch_generator
                     (omap ads_run.accepted (enumerate (events blb))))).
Proof.
  intros add self blb w Hall Hok.
  unfold ads_ssd_hook.send_events, bind at 1, lift at 1.
  rewrite ads_facts.validate_and_prepare_total.
  - cbn [fst snd]. unfold bind at 1.
    rewrite (send_batches_all_accepted _ _ _ _ _ Hok).
    unfold enumerate at 1. rewrite (all_accepted _ 0 Hall).
    unfold lift. cbn [append_failed_events]. reflexivity.
  - eapply Forall_impl; [exact Hall|]. intros event Hev.
    simpl in *. unfold ads_run.escapes.
    destruct (_format_event event) as [t|e]; [done|]. discriminate Hev.
Qed.

(** X12: on a blob whose events hold only strings, and with an upload
    that either returns or raises [DataOutConnectorSendUnsuccessfulError],
    [send_events] of the store-sales hook returns a blob: it raises
    nothing, even when every record fails. *)
Theorem send_events_returns_on_string_events :
  forall add_store_sales_conversions self blb w,
    Forall string_valued (events blb) ->
    (forall w c, ads_run.survivable (add_store_sales_conversions w c)) ->
    exists blb' w',
      ads_ssd_hook.send_events add_store_sales_conversions self blb w
      = (Ok blb', w').
Proof.
  intros add self blb w Hstr Hsurv.
  unfold ads_ssd_hook.send_events, bind at 1, lift at 1.
  rewrite ads_facts.validate_and_prepare_total.
  - cbn [fst snd]. unfold bind at 1.
    destruct (send_batches_survives self
                (_batch_generator (omap ads_run.accepted (enumerate (events blb))))
                (omap ads_run.rejected (enumerate (events blb))) w add Hsurv)
      as (invalid' & w' & Hsend).
    rewrite Hsend.
    apply ads_facts.send_batches_run in Hsend as (outcomes & _ & _ & _ & ->).
    unfold lift. rewrite append_failed_events_spec by apply failures_in_range.
    by eauto.
  - eapply Forall_impl; [exact Hstr|]. intros event Hev.
    unfold ads_run.escapes.
    destruct (format_event_on_strings event Hev) as [[t ->]|(msg & c & ->)]; done.
Qed.

(** ** Construction of the GA4 hook *)

(** X13: the credentials pass exactly when the API secret is not empty
    and either the payload type is [gtag] with a measurement id, or it is
    [firebase] with a Firebase app id.  A missing secret is reported as an
    authentication error, before anything else is looked at; every other
    refusal is a [DataOutConnectorError]. *)
Theorem validate_credentials_accepts_exactly :
  forall api_secret payload_type measurement_id firebase_app_id,
    (ga4_hook._validate_credentials api_secret payload_type
                                    measurement_id firebase_app_id = Ok tt <->
     ga4_hook.empty_opt api_secret = false /\
     ((payload_type = "gtag" /\ ga4_hook.empty_opt measurement_id = false) \/
      (payload_type = "firebase" /\ ga4_hook.empty_opt firebase_app_id = false))) /\
    (ga4_hook.empty_opt api_secret = true ->
     exists msg,
       ga4_hook._validate_credentials api_secret payload_type
                                      measurement_id firebase_app_id
       = Raise (DataOutConnectorAuthenticationError msg)) /\
    (ga4_hook.empty_opt api_secret = false ->
     ga4_hook._validate_credentials api_secret payload_type
                                    measurement_id firebase_app_id = Ok tt \/
     exists msg,
       ga4_hook._validate_credentials api_secret payload_type
                                      measurement_id firebase_app_id
       = Raise (DataOutConnectorError msg)).
Proof.
  intros secret type mid fid. unfold ga4_hook._validate_credentials.
  destruct (ga4_hook.empty_opt secret) eqn:Hsecret.
  { split_and!; [|by eauto|done]. split; [done|]. by intros [? _]. }
  unfold str_in, ga4_hook.FIREBASE, ga4_hook.GTAG. cbn [existsb].
  destruct (String.eqb_spec type "firebase") as [Hf|Hf];
    destruct (String.eqb_spec type "gtag") as [Hg|Hg]; [congruence|..];
    cbn [orb negb andb].
  - subst type. destruct (ga4_hook.empty_opt fid) eqn:Hfid.
    + split_and!; [|done|by eauto]. split; [done|].
      intros [_ [[? _]|[_ ?]]]; done.
    + split_and!; [|done|by eauto]. split; [|done]. intros _. by eauto.
  - subst type. destruct (ga4_hook.empty_opt mid) eqn:Hmid.
    + split_and!; [|done|by eauto]. split; [done|].
      intros [_ [[_ ?]|[? _]]]; done.
    + split_and!; [|done|by eauto]. split; [|done]. intros _. by eauto.
  - split_and!; [|done|by eauto]. split; [done|].
    intros [_ [[? _]|[? _]]]; done.
Qed.

(** X14: a hook that [__init__] builds has a non-empty secret and the id
    its payload type needs, and both of its URLs end in the query string
    made of that secret and that id: the post URL is the collect
    endpoint, the validation URL the debug endpoint, with the same query. *)
Theorem init_builds_both_urls :
  forall api_secret payload_type measurement_id firebase_app_id dry_run hook,
    ga4_hook.__init__ api_secret payload_type measurement_id firebase_app_id
                      dry_run = Ok hook ->
    exists secret id,
      api_secret = Some secret /\ secret <> "" /\ id <> "" /\
      ((payload_type = "gtag" /\ measurement_id = Some id /\
        ga4_hook.post_url hook =
          ("https://www.google-analytics.com/mp/collect?api_secret=" ++ secret
           ++ "&measurement_id=" ++ id)%string /\
        ga4_hook.validate_url hook =
          ("https://www.google-analytics.com/debug/mp/collect?api_secret=" ++ secret
           ++ "&measurement_id=" ++ id)%string) \/
       (payload_type = "firebase" /\ firebase_app_id = Some id /\
        ga4_hook.post_url hook =
          ("https://www.google-analytics.com/mp/collect?api_secret=" ++ secret
           ++ "&firebase_app_id=" ++ id)%string /\
        ga4_hook.validate_url hook =
          ("https://www.google-analytics.com/debug/mp/collect?api_secret=" ++ secret
           ++ "&firebase_app_id=" ++ id)%string)) /\
      ga4_hook.dry_run hook = dry_run.
Proof.
  intros secret type mid fid dry hook. unfold ga4_hook.__init__.
  destruct (ga4_hook._validate_credentials secret type mid fid) as [[]|e] eqn:Hcred;
    [|done].
  cbn [rbind]. intros [= <-]. cbn [ga4_hook.post_url ga4_hook.validate_url
                                   ga4_hook.dry_run].
  revert Hcred. unfold ga4_hook._validate_credentials.
  destruct secret as [secret|]; [|done]. cbn [ga4_hook.empty_opt].
  destruct (String.eqb_spec secret "") as [|Hsecret]; [done|].
  unfold str_in, ga4_hook.FIREBASE, ga4_hook.GTAG. cbn [existsb].
  destruct (String.eqb_spec type "firebase") as [Hf|Hf];
    destruct (String.eqb_spec type "gtag") as [Hg|Hg]; [congruence|..];
    cbn [orb negb andb]; [| |done].
  - subst type. destruct fid as [fid|]; [|done]. cbn [ga4_hook.empty_opt].
    destruct (String.eqb_spec fid "") as [|Hfid]; [done|]. intros _.
    exists secret, fid. split_and!; try done. right. done.
  - subst type. destruct mid as [mid|]; [|done]. cbn [ga4_hook.empty_opt].
    destruct (String.eqb_spec mid "") as [|Hmid]; [done|]. intros _.
    exists secret, mid. split_and!; try done. left. done.
Qed.

(** ** Validation and sending of the GA4 hook *)

Module ga4_more_facts.
Import ga4_hook ga4_run ga4_more.

Section MoreFacts.

Variable json_loads : string -> option json.
Variable remote : list (Request * Response) -> Request -> Response.
Variable self : GoogleAnalyticsV4Hook.

Lemma load_event_malformed event :
  load_event json_loads event = Ok None <-> malformed json_loads event.
Proof.
  unfold load_event, malformed.
  destruct (event !! "id") as [row_id|]; [|by split; eauto].
  destruct (event !! "payload") as [payload|]; [|by split; eauto].
  destruct payload as [| | |text|]; try (split; [done|]; intros [?|[?|(? & ? & ?)]]; done).
  destruct (json_loads text) eqn:Hloads.
  - split; [done|]. intros [?|[?|(? & [= <-] & ?)]]; congruence.
  - split; [|done]. intros _. right. right. by eauto.
Qed.

Lemma validate_event_malformed event w :
  malformed json_loads event ->
  validate_event json_loads remote self event w
  = (Ok (Invalid GA4_HOOK_ERROR_INVALID_JSON_STRUCTURE), w).
Proof.
  intros Hmal%load_event_malformed.
  unfold validate_event, bind at 1, lift at 1. by rewrite Hmal.
Qed.

Lemma validate_events_loop_malformed (events : list Event) start valid invalid w :
  Forall (malformed json_loads) events ->
  validate_events_loop json_loads remote self
    (zip (seq start (length events)) events) valid invalid w
  = (Ok (valid,
         invalid ++ ((fun i => (i, GA4_HOOK_ERROR_INVALID_JSON_STRUCTURE))
                       <$> seq start (length events))),
     w).
Proof.
  intros Hall. revert start invalid.
  induction Hall as [|event events Hevent Hall IH]; intros start invalid.
  - simpl. unfold ret. by rewrite app_nil_r.
  - cbn [length seq zip zip_with validate_events_loop]. unfold bind at 1.
    rewrite (validate_event_malformed _ _ Hevent).
    change (zip_with pair ?l ?k) with (zip l k).
    rewrite IH, <- app_assoc. reflexivity.
Qed.




Lemma dry_answers valid (answers : list (option Response)) :
  length answers = length valid ->
  Forall (fun answer => answer = None) answers ->
  omap (sent_request self) (zip valid answers) = [] /\
  omap send_failure (zip valid answers) = [] /\
  omap (sent_log self) (zip valid answers)
  = (fun valid_event => log_info (post_url self) (payload_of valid_event)) <$> valid.
Proof.
  revert answers. induction valid as [|ve valid IH]; intros [|answer answers];
    try done.
  intros [= Hlen] [-> Hall]%Forall_cons.
  rewrite !omap_zip_cons. cbn [sent_request send_failure sent_log snd fst].
  destruct (IH answers Hlen Hall) as (-> & -> & ->). done.
Qed.

End MoreFacts.

End ga4_more_facts.

(** X15: an event without id, without payload, or with a payload string
    that does not parse is refused with the invalid-JSON-structure code
    and no request is made for it; a blob of such events comes back with
    every index reported under that code, the world (requests and log)
    untouched. *)
Theorem malformed_events_are_refused_locally :
  forall json_loads remote self,
    (forall event w,
        ga4_more.malformed json_loads event ->
        ga4_hook.validate_event json_loads remote self event w
        = (Ok (ga4_hook.Invalid GA4_HOOK_ERROR_INVALID_JSON_STRUCTURE), w)) /\
    (forall blb w,
        Forall (ga4_more.malformed json_loads) (events blb) ->
        ga4_hook.send_events json_loads remote self blb w
        = (Ok (mkBlob (events blb) (position blb)
                 (failed_events blb
                  ++ ((fun i => failure_record (events blb) (position blb)
                                  (i, GA4_HOOK_ERROR_INVALID_JSON_STRUCTURE))
                        <$> seq 0 (length (events blb))))),
           w)).
Proof.
  intros json_loads remote self.
  split; [apply ga4_more_facts.validate_event_malformed|].
  intros blb w Hall.
  unfold ga4_hook.send_events, ga4_hook._validate_events_to_send, bind at 1,
    enumerate.
  rewrite ga4_more_facts.validate_events_loop_malformed by done.
  cbn [fst snd ga4_hook.send_valid_events app]. unfold bind, ret, lift.
  rewrite append_failed_events_spec.
  - by rewrite <- list_fmap_compose.
  - apply Forall_forall. intros [i error] (j & [= -> ->] & Hj)%list_elem_of_fmap.
    apply elem_of_seq in Hj. simpl. lia.
Qed.

(** X16: an event whose payload parses to a JSON value that is not an
    object (an array, a string, a number) makes validation raise
    [TypeError] on the assignment of [validationBehavior], before any
    request; nothing catches it, and [send_events] on a blob that starts
    with such an event ends with [TypeError]. *)
Theorem non_object_payload_raises :
  forall json_loads remote self (event : Event) row_id text j,
    event !! "id" = Some row_id ->
    event !! "payload" = Some (PStr text) ->
    json_loads text = Some j ->
    (forall members, j <> JObject members) ->
    (forall w, ga4_hook.validate_event json_loads remote self event w
               = (Raise TypeError, w)) /\
    (forall rest position failed w,
        ga4_hook.send_events json_loads remote self
          (mkBlob (event :: rest) position failed) w
        = (Raise TypeError, w)).
Proof.
  intros json_loads remote self event row_id text j Hid Hpayload Hloads Hj.
  assert (forall w, ga4_hook.validate_event json_loads remote self event w
                    = (Raise TypeError, w)) as Hraise.
  { intros w.
    unfold ga4_hook.validate_event, bind at 1, lift at 1, ga4_hook.load_event.
    rewrite Hid, Hpayload, Hloads. unfold bind at 1, lift at 1.
    destruct j; try done. by destruct (Hj members). }
  split; [done|]. intros rest position failed w.
  unfold ga4_hook.send_events, ga4_hook._validate_events_to_send, bind at 1,
    enumerate.
  cbn [events length seq zip zip_with ga4_hook.validate_events_loop].
  unfold bind at 1. by rewrite Hraise.
Qed.

Lemma string_app_assoc' (a b c : string) :
  ((a ++ b) ++ c)%string = (a ++ (b ++ c))%string.
Proof.
  induction a as [|x a IH]; [done|].
  change (String x ((a ++ b) ++ c) = String x (a ++ (b ++ c))). by rewrite IH.
Qed.

Lemma str_contains_shorter (needle more hay : string) :
  str_contains (needle ++ more) hay = true -> str_contains needle hay = true.
Proof.
  rewrite !str_contains_spec. intros (before & after & ->).
  exists before, (more ++ after)%string. by rewrite string_app_assoc'.
Qed.

(** X17: the table entries [events.params] and [events.params.items] can
    only be chosen through the field path: a description that mentions
    either name also contains [events], an earlier entry, so a message
    that gets one of these two codes has exactly that field path. *)
Theorem nested_entries_are_chosen_by_field_path :
  forall (field_path : option string) (description : string),
    (ga4_hook.find_error_type ga4_hook._ERROR_TYPES field_path description
       = Some GA4_HOOK_ERROR_VALUE_INVALID_EVENTS_PARAMS ->
     field_path = Some "events.params") /\
    (ga4_hook.find_error_type ga4_hook._ERROR_TYPES field_path description
       = Some GA4_HOOK_ERROR_VALUE_INVALID_EVENTS_PARAMS_ITEMS ->
     field_path = Some "events.params.items") /\
    (str_contains "events" description = true ->
     ga4_hook.find_error_type ga4_hook._ERROR_TYPES field_path description
       <> Some GA4_HOOK_ERROR_VALUE_INVALID_EVENTS_PARAMS /\
     ga4_hook.find_error_type ga4_hook._ERROR_TYPES field_path description
       <> Some GA4_HOOK_ERROR_VALUE_INVALID_EVENTS_PARAMS_ITEMS /\
     ga4_hook.find_error_type ga4_hook._ERROR_TYPES field_path description
       <> None).
Proof.
  intros field_path description.
  pose proof (str_contains_shorter "events" ".params" description) as Hparams.
  pose proof (str_contains_shorter "events" ".params.items" description) as Hitems.
  change ("events" ++ ".params")%string with "events.params" in Hparams.
  change ("events" ++ ".params.items")%string with "events.params.items" in Hitems.
  unfold ga4_hook._ERROR_TYPES. cbn [ga4_hook.find_error_type].
  destruct (str_contains "events" description) eqn:Hevents.
  - repeat match goal with
           | |- context [if (?c || ?d)%bool then _ else _] =>
               destruct (c || d)%bool eqn:?
           end;
      try (split_and!; intros; done);
      match goal with
      | H : (_ || true)%bool = false |- _ => by rewrite orb_true_r in H
      end.
  - destruct (str_contains "events.params" description); [by discriminate Hparams|].
    destruct (str_contains "events.params.items" description);
      [by discriminate Hitems|].
    rewrite !orb_false_r.
    repeat match goal with
           | |- context [if (?c || ?d)%bool then _ else _] =>
               destruct (c || d)%bool eqn:?
           end;
      try (split_and!; intros; done).
    all: destruct field_path as [f|]; try (split_and!; intros; done).
    all: repeat match goal with
           | |- context [if String.eqb ?a ?b then _ else _] =>
               destruct (String.eqb_spec a b)
           end; subst; split_and!; intros; done.
Qed.

(** X18: in a dry run the GA4 hook sends nothing: a call that returns has
    made no request beyond those of validation, has logged one line per
    valid event, and reports only the events validation refused. *)
Theorem dry_run_sends_nothing :
  forall json_loads remote self blb w blb' w',
    ga4_hook.dry_run self = true ->
    ga4_hook.send_events json_loads remote self blb w = (Ok blb', w') ->
    exists valid rejected w1,
      ga4_hook._validate_events_to_send json_loads remote self (events blb) w
        = (Ok (valid, rejected), w1) /\
      ga4_hook.http w' = ga4_hook.http w1 /\
      filter ga4_anatomy.is_send (ga4_hook.http w')
        = filter ga4_anatomy.is_send (ga4_hook.http w) /\
      ga4_hook.logs w' =
        ga4_hook.logs w1
        ++ ((fun valid_event =>
               ga4_hook.log_info (ga4_hook.post_url self)
                                 (ga4_run.payload_of valid_event)) <$> valid) /\
      failed_events blb' =
        failed_events blb
        ++ map (failure_record (events blb) (position blb)) rejected.
Proof.
  intros json_loads remote self blb w blb' w' Hdry Hrun.
  apply ga4_send_events_explained in Hrun
    as (valid & rejected & w1 & answers & Hex & _).
  destruct Hex as (Hval & Hsends & Hlen & Hanswers & Hh & Hl & ->).
  assert (Forall (fun answer => answer = None) answers) as Hnone.
  { eapply Forall_impl; [exact Hanswers|]. intros answer [_ Hd]. by apply Hd. }
  destruct (ga4_more_facts.dry_answers self valid answers Hlen Hnone)
    as (Hreq & Hfail & Hlog).
  exists valid, rejected, w1. unfold ga4_anatomy.failures.
  rewrite Hh, Hl, Hreq, Hfail, Hlog, !app_nil_r. done.
Qed.


Lemma sent_requests_when_not_dry self valid
    (answers : list (option ga4_hook.Response)) :
  length answers = length valid ->
  Forall (fun answer => answer <> None) answers ->
  exists responses,
    length responses = length valid /\
    omap (ga4_run.sent_request self) (zip valid answers)
    = zip_with (fun valid_event response =>
                  (ga4_hook.post_data (ga4_hook.post_url self)
                                      (ga4_run.payload_of valid_event),
                   response))
               valid responses.
Proof.
  revert answers. induction valid as [|ve valid IH]; intros [|answer answers];
    try done.
  - intros _ _. by exists [].
  - intros [= Hlen] [Hsome Hall]%Forall_cons.
    destruct answer as [response|]; [|done].
    destruct (IH answers Hlen Hall) as (responses & Hlen' & Heq).
    exists (response :: responses). split; [simpl; lia|].
    rewrite omap_zip_cons. cbn [ga4_run.sent_request snd fst zip_with].
    by rewrite Heq.
Qed.

(** X20: outside a dry run, a call of the GA4 hook that returns has
    posted, after the requests of validation, exactly one request per
    valid event, in input order, to the post URL, and the data of the
    request is the payload string of that input event as it came (not the
    dictionary validation added [validationBehavior] to). *)
Theorem sends_carry_the_raw_payloads :
  forall json_loads remote self blb w blb' w',
    ga4_hook.dry_run self = false ->
    ga4_hook.send_events json_loads remote self blb w = (Ok blb', w') ->
    exists valid rejected w1 responses,
      ga4_hook._validate_events_to_send json_loads remote self (events blb) w
        = (Ok (valid, rejected), w1) /\
      length responses = length valid /\
      ga4_hook.http w' =
        ga4_hook.http w1
        ++ zip_with (fun valid_event response =>
                       (ga4_hook.post_data (ga4_hook.post_url self)
                                           (ga4_run.payload_of valid_event),
                        response))
                    valid responses /\
      Forall (fun valid_event =>
                events blb !! fst valid_event = Some (snd valid_event) /\
                snd valid_event !! "payload"
                  = Some (ga4_run.payload_of valid_event))
             valid.
Proof.
  intros json_loads remote self blb w blb' w' Hdry Hrun.
  apply ga4_send_events_explained in Hrun
    as (valid & rejected & w1 & answers & Hex & _).
  destruct Hex as (Hval & _ & Hlen & Hanswers & Hh & _ & _).
  assert (Forall (fun answer => answer <> None) answers) as Hsome.
  { eapply Forall_impl; [exact Hanswers|]. simpl.
    intros answer [Hnone _] ->. specialize (Hnone eq_refl). congruence. }
  destruct (sent_requests_when_not_dry self valid answers Hlen Hsome)
    as (responses & Hlen' & Heq).
  exists valid, rejected, w1, responses. rewrite Hh, Heq.
  split_and!; try done.
  unfold ga4_hook._validate_events_to_send in Hval.
  apply ga4_facts.validate_events_loop_run in Hval
    as (verdicts & _ & _ & _ & Hvalid & _ & Hp & _).
  simpl in Hvalid. subst valid.
  apply Forall_forall. intros [i event] Hin. split.
  - apply ga4_facts.keep_valid_event in Hin. by apply enumerate_lookup.
  - rewrite Forall_forall in Hp. destruct (Hp _ Hin) as [payload Hpayload].
    simpl in *. unfold ga4_run.payload_of. simpl. by rewrite Hpayload.
Qed.

(** ** The further properties at work on the sample inputs *)

Lemma good_event_string_valued : string_valued good_event.
Proof.
  intros field v Hv. unfold good_event in Hv.
  repeat (rewrite lookup_insert in Hv; case_decide;
          [injection Hv as <-; by eexists|]).
  by rewrite lookup_empty in Hv.
Defined.


Lemma format_event_on_strings_accepts_or_refuses_witness :
  (exists t, _format_event good_event = Ok t) \/
  (exists msg error_num,
      _format_event good_event = Raise (DataOutConnectorValueError msg error_num)).
Proof.
  apply (format_event_on_strings_accepts_or_refuses good_event).
  exact good_event_string_valued.
Defined.

Lemma format_event_identifier_errors_witness :
  _format_event event_no_identifier =
  Raise (DataOutConnectorValueError
           "Event is missing at least one user identifier field ['email', 'email2', 'email3', 'firstName', 'lastName', 'city', 'state', 'zip', 'country', 'phoneNumber', 'phoneNumber2', 'phoneNumber3']"
           ADS_SSD_HOOK_ERROR_MISSING_IDENTIFIER_FIELD).
Proof.
  apply (proj1 (format_event_identifier_errors event_no_identifier
                  ltac:(unfold has_mandatory_fields, store_sales_transaction_fields;
                        repeat constructor; eexists; vm_compute; reflexivity))).
  intros field type Hin. unfold identifier_types in Hin.
  repeat (apply elem_of_cons in Hin as [[= -> ->]|Hin];
          [vm_compute; reflexivity|]).
  by apply elem_of_nil in Hin.
Defined.


Lemma validation_keeps_indices_witness :
  exists valid invalid,
    _validate_and_prepare_events_to_send [good_event; event_no_amount]
      = Ok (valid, invalid) /\
    StronglySorted lt valid.*1 /\ StronglySorted lt invalid.*1 /\
    length valid + length invalid = 2.
Proof.
  eexists _, _. split; [vm_compute; reflexivity|].
  apply (validation_keeps_indices [good_event; event_no_amount]).
  vm_compute; reflexivity.
Defined.

Lemma uploads_carry_the_accepted_transactions_witness :
  exists blb' w',
    ads_ssd_hook.send_events upload_accepts ads_self
      (mkBlob [good_event; event_no_amount] 0 []) [] = (Ok blb', w') /\
    exists valid rejected,
      _validate_and_prepare_events_to_send [good_event; event_no_amount]
        = Ok (valid, rejected) /\
      concat (call_user_list <$> (drop 0 w').*1) = valid.*2 /\
      Forall (fun call =>
                0 < length (call_user_list call) <= 1000 /\
                call_external_upload_id call = external_upload_id ads_self /\
                call_upload_type call = upload_type ads_self)
             (drop 0 w').*1.
Proof.
  eexists _, _. split; [vm_compute; reflexivity|].
  eapply (uploads_carry_the_accepted_transactions upload_accepts ads_self
            (mkBlob [good_event; event_no_amount] 0 []) []).
  vm_compute; reflexivity.
Defined.

Lemma send_events_without_failure_witness :
  fst (ads_ssd_hook.send_events upload_accepts ads_self
         (mkBlob [good_event; good_event] 3 []) [])
  = Ok (mkBlob [good_event; good_event] 3 []).
Proof.
  rewrite (send_events_without_failure upload_accepts ads_self
             (mkBlob [good_event; good_event] 3 []) []).
  - reflexivity.
  - repeat constructor; vm_compute; reflexivity.
  - reflexivity.
Defined.

Lemma send_events_returns_on_string_events_witness :
  exists blb' w',
    ads_ssd_hook.send_events upload_fails ads_self
      (mkBlob [good_event] 0 []) [] = (Ok blb', w').
Proof.
  apply (send_events_returns_on_string_events upload_fails ads_self
           (mkBlob [good_event] 0 []) []).
  - repeat constructor. exact good_event_string_valued.
  - intros w c. exact I.
Defined.

Lemma init_builds_both_urls_witness :
  exists secret id,
    Some "abcdABCDefghEFGH123456" = Some secret /\ secret <> "" /\ id <> "" /\
    ((ga4_hook.GTAG = "gtag" /\ Some "G-02ABCDEFGH" = Some id /\
      ga4_hook.post_url ga4_self =
        ("https://www.google-analytics.com/mp/collect?api_secret=" ++ secret
         ++ "&measurement_id=" ++ id)%string /\
      ga4_hook.validate_url ga4_self =
        ("https://www.google-analytics.com/debug/mp/collect?api_secret=" ++ secret
         ++ "&measurement_id=" ++ id)%string) \/
     (ga4_hook.GTAG = "firebase" /\ None = Some id /\
      ga4_hook.post_url ga4_self =
        ("https://www.google-analytics.com/mp/collect?api_secret=" ++ secret
         ++ "&firebase_app_id=" ++ id)%string /\
      ga4_hook.validate_url ga4_self =
        ("https://www.google-analytics.com/debug/mp/collect?api_secret=" ++ secret
         ++ "&firebase_app_id=" ++ id)%string)) /\
    ga4_hook.dry_run ga4_self = false.
Proof.
  apply (init_builds_both_urls (Some "abcdABCDefghEFGH123456") ga4_hook.GTAG
           (Some "G-02ABCDEFGH") None false ga4_self).
  vm_compute; reflexivity.
Defined.

Lemma non_object_payload_raises_witness :
  ga4_hook.validate_event json_loads_two remote_accepts ga4_self
    ga4_event_array ga4_start
  = (Raise TypeError, ga4_start).
Proof.
  apply (proj1 (non_object_payload_raises json_loads_two remote_accepts ga4_self
                  ga4_event_array (PInt 2) "[]" (JArray [])
                  ltac:(vm_compute; reflexivity) ltac:(vm_compute; reflexivity)
                  ltac:(vm_compute; reflexivity) ltac:(intros members; discriminate))).
Defined.

Lemma dry_run_sends_nothing_witness :
  exists blb' w',
    ga4_hook.send_events json_loads_two remote_accepts ga4_self_dry
      (mkBlob [ga4_event] 0 []) ga4_start = (Ok blb', w') /\
    exists valid rejected w1,
      ga4_hook._validate_events_to_send json_loads_two remote_accepts ga4_self_dry
        [ga4_event] ga4_start = (Ok (valid, rejected), w1) /\
      ga4_hook.http w' = ga4_hook.http w1 /\
      filter ga4_anatomy.is_send (ga4_hook.http w')
        = filter ga4_anatomy.is_send (ga4_hook.http ga4_start) /\
      ga4_hook.logs w' =
        ga4_hook.logs w1
        ++ ((fun valid_event =>
               ga4_hook.log_info (ga4_hook.post_url ga4_self_dry)
                                 (ga4_run.payload_of valid_event)) <$> valid) /\
      failed_events blb' =
        [] ++ map (failure_record [ga4_event] 0) rejected.
Proof.
  eexists _, _. split; [vm_compute; reflexivity|].
  apply (dry_run_sends_nothing json_loads_two remote_accepts ga4_self_dry
           (mkBlob [ga4_event] 0 []) ga4_start).
  - reflexivity.
  - vm_compute; reflexivity.
Defined.


Lemma sends_carry_the_raw_payloads_witness :
  exists blb' w',
    ga4_hook.send_events json_loads_two remote_accepts ga4_self
      (mkBlob [ga4_event] 0 []) ga4_start = (Ok blb', w') /\
    exists valid rejected w1 responses,
      ga4_hook._validate_events_to_send json_loads_two remote_accepts ga4_self
        [ga4_event] ga4_start = (Ok (valid, rejected), w1) /\
      length responses = length valid /\
      ga4_hook.http w' =
        ga4_hook.http w1
        ++ zip_with (fun valid_event response =>
                       (ga4_hook.post_data (ga4_hook.post_url ga4_self)
                                           (ga4_run.payload_of valid_event),
                        response))
                    valid responses /\
      Forall (fun valid_event =>
                [ga4_event] !! fst valid_event = Some (snd valid_event) /\
                snd valid_event !! "payload"
                  = Some (ga4_run.payload_of valid_event))
             valid.
Proof.
  eexists _, _. split; [vm_compute; reflexivity|].
  eapply (sends_carry_the_raw_payloads json_loads_two remote_accepts ga4_self
            (mkBlob [ga4_event] 0 []) ga4_start).
  - reflexivity.
  - vm_compute; reflexivity.
Defined.


Lemma malformed_events_are_refused_locally_witness :
  ga4_hook.validate_event json_loads_two remote_accepts ga4_self ∅ ga4_start
  = (Ok (ga4_hook.Invalid GA4_HOOK_ERROR_INVALID_JSON_STRUCTURE), ga4_start).
Proof.
  apply (proj1 (malformed_events_are_refused_locally json_loads_two
                  remote_accepts ga4_self)).
  left. vm_compute; reflexivity.
Defined.

